(** * PyFluff: the device cache, the Home Assistant bridge and the DLC slot model

    A shallow embedding of [pyfluff/furby_cache.py] and
    [pyfluff/homeassistant.py], and of the DLC transfer core that the
    specification describes.  Python methods become computations in a small
    state-and-exception monad; the objects they mutate, the event loop, the
    file system and the MQTT broker are explicit components of the state. *)

From Stdlib Require Import ZArith String List Bool Lia DecimalString.
From stdpp Require Import base option list strings gmap sorting.

Open Scope Z_scope.
Open Scope string_scope.
Open Scope list_scope.

(** ** Python runtime: exceptions and the state/exception monad *)
Module Py.

(** The exception classes the two modules can meet.  [CancelledError] derives
    from [BaseException], every other one from [Exception]. *)
Inductive exn : Type :=
| RuntimeError (msg : string)
| FileNotFoundError
| PermissionError
| JSONDecodeError
| TypeError
| ValidationError
| MqttError
| CancelledError.

(** [isinstance(e, Exception)] *)
Definition is_Exception (e : exn) : bool :=
  match e with
  | CancelledError => false
  | _ => true
  end.

Inductive result (A : Type) : Type :=
| Return (a : A)
| Raise (e : exn).
Arguments Return {A} a.
Arguments Raise {A} e.

(** A method body: it reads and writes a state [S] and either returns a
    value or raises. *)
Definition M (S A : Type) : Type := S -> result A * S.

Definition ret {S A} (a : A) : M S A := fun s => (Return a, s).

Definition bind {S A B} (c : M S A) (k : A -> M S B) : M S B :=
  fun s =>
    match c s with
    | (Return a, s') => k a s'
    | (Raise e, s') => (Raise e, s')
    end.

Definition raise {S A} (e : exn) : M S A := fun s => (Raise e, s).

Definition get {S} : M S S := fun s => (Return s, s).

Definition gets {S A} (f : S -> A) : M S A := fun s => (Return (f s), s).

Definition modify {S} (f : S -> S) : M S unit := fun s => (Return tt, f s).

(** [try: c  except Exception as e: h e] *)
Definition try_except_Exception {S A} (c : M S A) (h : exn -> M S A) : M S A :=
  fun s =>
    match c s with
    | (Return a, s') => (Return a, s')
    | (Raise e, s') => if is_Exception e then h e s' else (Raise e, s')
    end.

(** [try: c  except CancelledError: pass] *)
Definition try_except_Cancelled {S} (c : M S unit) : M S unit :=
  fun s =>
    match c s with
    | (Return a, s') => (Return a, s')
    | (Raise CancelledError, s') => (Return tt, s')
    | (Raise e, s') => (Raise e, s')
    end.

(** [try: c  except RuntimeError: h] *)
Definition try_except_RuntimeError {S A} (c : M S A) (h : M S A) : M S A :=
  fun s =>
    match c s with
    | (Raise (RuntimeError _), s') => h s'
    | other => other
    end.

(** Running a computation that works on a component of the state. *)
Definition zoom {S T A} (proj : S -> T) (inj : T -> S -> S) (c : M T A) : M S A :=
  fun s => let (r, t') := c (proj s) in (r, inj t' s).

Definition raised {A} (r : result A) : Prop :=
  match r with
  | Return _ => False
  | Raise _ => True
  end.

End Py.

Import Py.

Declare Scope py_scope.
Delimit Scope py_scope with py.
Notation "x <- c ;; k" := (bind c (fun x => k))
  (at level 100, c at next level, k at level 200, right associativity) : py_scope.
Notation "c ;; k" := (bind c (fun _ => k))
  (at level 100, k at level 200, right associativity) : py_scope.
Open Scope py_scope.

(** ** Python dictionaries

    A [dict] keeps its keys unique and in insertion order, and both are
    observable here ([values()] feeds a stable sort, [keys()] is returned), so
    it is an association list. *)
Module Dict.
Section Dict.
Context {V : Type}.

Definition dict : Type := list (string * V).

(** [d.get(k)] *)
Fixpoint get (k : string) (d : dict) : option V :=
  match d with
  | [] => None
  | (k', v) :: d' => if String.eqb k k' then Some v else get k d'
  end.

(** [k in d] *)
Definition mem (k : string) (d : dict) : bool :=
  match get k d with
  | Some _ => true
  | None => false
  end.

(** [d[k] = v]: an existing key keeps its position, a new key goes last. *)
Fixpoint set (k : string) (v : V) (d : dict) : dict :=
  match d with
  | [] => [(k, v)]
  | (k', v') :: d' => if String.eqb k k' then (k', v) :: d' else (k', v') :: set k v d'
  end.

(** [del d[k]] *)
Fixpoint del (k : string) (d : dict) : dict :=
  match d with
  | [] => []
  | (k', v') :: d' => if String.eqb k k' then d' else (k', v') :: del k d'
  end.

Definition keys (d : dict) : list string := map fst d.
Definition values (d : dict) : list V := map snd d.

(** The representation invariant of a dictionary. *)
Definition wf (d : dict) : Prop := NoDup (keys d).

End Dict.
Arguments dict V : clear implicits.
End Dict.

(** ** JSON documents

    The text codec of Python's [json] module is outside the repository: a
    file is kept as the document [json.load] reads from it.  Numbers are
    integers here: the only float the cache stores is the [time.time()]
    stamp [last_seen], which is only compared and copied, never computed
    with, so the stamp is kept as an integer count of clock ticks. *)
Module Json.

#[local] Set Warnings "-register-all".

Inductive json : Type :=
| JNull
| JBool (b : bool)
| JNum (z : Z)
| JStr (s : string)
| JArr (items : list json)
| JObj (members : list (string * json)).

(** The [dict] that [json.load] builds from the members of an object: a
    repeated key keeps its first position and its last value. *)
Definition py_dict {V} (members : list (string * V)) : Dict.dict V :=
  fold_left (fun d kv => Dict.set (fst kv) (snd kv) d) members [].

Definition as_str (j : json) : option string :=
  match j with
  | JStr s => Some s
  | _ => None
  end.

Definition as_num (j : json) : option Z :=
  match j with
  | JNum z => Some z
  | _ => None
  end.

(** A field annotated [T | None]: absent and [null] both give [None]. *)
Definition as_optional {A} (conv : json -> option A) (j : option json) : option (option A) :=
  match j with
  | None => Some None
  | Some JNull => Some None
  | Some v => match conv v with
              | Some a => Some (Some a)
              | None => None
              end
  end.

Definition of_optional {A} (conv : A -> json) (o : option A) : json :=
  match o with
  | Some a => conv a
  | None => JNull
  end.

End Json.

(** ** [pyfluff.models]: the two cache models *)
Module Models.
Import Json.

(** Modelled from the spec: [pyfluff/models.py] is not among the sources.
    The fields of [KnownFurby] are the keyword arguments
    [FurbyCache.add_or_update] constructs it with, typed as that method's
    annotations type them; the spec only calls the file a "JSON persistence of
    previously seen device identities". *)
Record KnownFurby : Type := mkKnownFurby {
  address : string;
  last_seen : Z;
  name : option string;
  name_id : option Z;
  device_name : option string;
  firmware_revision : option string
}.

(** Modelled from the spec: [KnownFurbiesConfig] has the one field
    [furbies], a dictionary from MAC address to [KnownFurby]. *)
Record KnownFurbiesConfig : Type := mkConfig {
  furbies : Dict.dict KnownFurby
}.

Definition set_device_name (v : option string) (f : KnownFurby) : KnownFurby :=
  mkKnownFurby (address f) (last_seen f) (name f) (name_id f) v (firmware_revision f).
Definition set_name (v : option string) (f : KnownFurby) : KnownFurby :=
  mkKnownFurby (address f) (last_seen f) v (name_id f) (device_name f) (firmware_revision f).
Definition set_name_id (v : option Z) (f : KnownFurby) : KnownFurby :=
  mkKnownFurby (address f) (last_seen f) (name f) v (device_name f) (firmware_revision f).
Definition set_firmware_revision (v : option string) (f : KnownFurby) : KnownFurby :=
  mkKnownFurby (address f) (last_seen f) (name f) (name_id f) (device_name f) v.
Definition set_last_seen (v : Z) (f : KnownFurby) : KnownFurby :=
  mkKnownFurby (address f) v (name f) (name_id f) (device_name f) (firmware_revision f).

(** Modelled from the spec: [furby.model_dump()] of the missing class, the
    fields as a JSON object. *)
Definition KnownFurby_model_dump (f : KnownFurby) : json :=
  JObj [ ("address", JStr (address f));
         ("last_seen", JNum (last_seen f));
         ("name", of_optional JStr (name f));
         ("name_id", of_optional JNum (name_id f));
         ("device_name", of_optional JStr (device_name f));
         ("firmware_revision", of_optional JStr (firmware_revision f)) ].

(** Modelled from the spec: [config.model_dump()] of the missing class. *)
Definition model_dump (c : KnownFurbiesConfig) : json :=
  JObj [ ("furbies",
          JObj (map (fun kv => (fst kv, KnownFurby_model_dump (snd kv))) (furbies c))) ].

(** Modelled from the spec: validation of one entry by the missing class;
    every field is looked up by name and checked against its type.  The
    coercions of pydantic's lax mode (a digit string for a number) are not
    modelled; they only matter for hand-written files. *)
Definition KnownFurby_validate (j : json) : option KnownFurby :=
  match j with
  | JObj members =>
      let d := py_dict members in
      a ← Dict.get "address" d ≫= as_str;
      t ← Dict.get "last_seen" d ≫= as_num;
      n ← as_optional as_str (Dict.get "name" d);
      i ← as_optional as_num (Dict.get "name_id" d);
      dn ← as_optional as_str (Dict.get "device_name" d);
      fw ← as_optional as_str (Dict.get "firmware_revision" d);
      Some (mkKnownFurby a t n i dn fw)
  | _ => None
  end.

Fixpoint validate_furbies (d : Dict.dict json) : option (Dict.dict KnownFurby) :=
  match d with
  | [] => Some []
  | (k, j) :: d' =>
      f ← KnownFurby_validate j;
      r ← validate_furbies d';
      Some ((k, f) :: r)
  end.

(** Modelled from the spec: the constructor call of the missing class
    [KnownFurbiesConfig] with [data] unpacked as its keyword arguments;
    unpacking needs a mapping ([TypeError] otherwise), then the field
    [furbies] is validated. *)
Definition KnownFurbiesConfig_validate (data : json) : result KnownFurbiesConfig :=
  match data with
  | JObj members =>
      match Dict.get "furbies" (py_dict members) with
      | Some (JObj fs) =>
          match validate_furbies (py_dict fs) with
          | Some d => Return (mkConfig d)
          | None => Raise ValidationError
          end
      | _ => Raise ValidationError
      end
  | _ => Raise TypeError
  end.

End Models.

(** ** [pyfluff/furby_cache.py]

    Calls of [logger] change nothing that is modelled and are left out. *)
Module FurbyCache.
Import Json Models.

(** *** The environment of a cache object *)

(** What [open(path)] can find. *)
Inductive File : Type :=
| Unreadable                 (* exists, [open] raises [PermissionError] *)
| Malformed (raw : string)   (* readable, [json.load] raises *)
| JsonDoc (v : json).        (* readable, holds the document [v] *)

(** The coroutine [delayed_save] wrapped in an [asyncio.Task]:
    sleeping out the debounce delay, asked to cancel and not yet resumed, or
    finished. *)
Inductive TaskState : Type :=
| Sleeping
| Cancelling
| Finished.

#[global] Instance TaskState_eq_dec : EqDecision TaskState.
Proof. solve_decision. Defined.

Record Env : Type := mkEnv {
  fs : gmap string File;          (* the files, by path *)
  unwritable : gset string;       (* paths that [open(_, "w")] or [mkdir] refuses *)
  loop_running : bool;            (* [asyncio.get_running_loop()] succeeds *)
  tasks : list TaskState;         (* the tasks created so far, by number *)
  clock : nat -> Z;               (* the successive values of [time.time()] *)
  ticks : nat                     (* how many of them were read *)
}.

(** The attributes of a [FurbyCache] instance. *)
Record Cache : Type := mkCache {
  cache_file : string;
  config : KnownFurbiesConfig;
  _save_pending : bool;
  _save_task : option nat;
  _save_delay : Z
}.

Record World : Type := mkWorld {
  self : Cache;
  env : Env
}.

Definition with_env (f : Env -> Env) (w : World) : World := mkWorld (self w) (f (env w)).
Definition with_self (f : Cache -> Cache) (w : World) : World := mkWorld (f (self w)) (env w).

Definition set_fs (v : gmap string File) (e : Env) : Env :=
  mkEnv v (unwritable e) (loop_running e) (tasks e) (clock e) (ticks e).
Definition set_tasks (v : list TaskState) (e : Env) : Env :=
  mkEnv (fs e) (unwritable e) (loop_running e) v (clock e) (ticks e).
Definition set_ticks (v : nat) (e : Env) : Env :=
  mkEnv (fs e) (unwritable e) (loop_running e) (tasks e) (clock e) v.

Definition set_config (v : KnownFurbiesConfig) (c : Cache) : Cache :=
  mkCache (cache_file c) v (_save_pending c) (_save_task c) (_save_delay c).
Definition set__save_pending (v : bool) (c : Cache) : Cache :=
  mkCache (cache_file c) (config c) v (_save_task c) (_save_delay c).
Definition set__save_task (v : option nat) (c : Cache) : Cache :=
  mkCache (cache_file c) (config c) (_save_pending c) v (_save_delay c).

(** *** Files, clock and tasks *)

(** [path.exists()]; the call itself is taken not to raise. *)
Definition exists_ (path : string) : M Env bool :=
  gets (fun e => bool_decide (is_Some (fs e !! path))).

(** [with open(path) as f: json.load(f)] *)
Definition open_json_load (path : string) : M Env json :=
  e <- get ;;
  match fs e !! path with
  | None => raise FileNotFoundError
  | Some Unreadable => raise PermissionError
  | Some (Malformed _) => raise JSONDecodeError
  | Some (JsonDoc v) => ret v
  end.

(** [path.parent.mkdir(parents=True, exist_ok=True)] followed by opening
    [path] for writing and writing the JSON text of [v]. *)
Definition mkdir_open_write (path : string) (v : json) : M Env unit :=
  e <- get ;;
  if bool_decide (path ∈ unwritable e) then raise PermissionError
  else modify (set_fs (<[path := JsonDoc v]> (fs e))).

(** [time.time()] *)
Definition time_time : M World Z :=
  w <- get ;;
  modify (with_env (set_ticks (S (ticks (env w))))) ;;
  ret (clock (env w) (ticks (env w))).

(** [asyncio.get_running_loop()] *)
Definition get_running_loop : M World unit :=
  w <- get ;;
  if loop_running (env w) then ret tt
  else raise (RuntimeError "no running event loop").

Definition task_state (t : nat) (e : Env) : TaskState :=
  default Finished (tasks e !! t).

(** [task.done()] *)
Definition done_ (t : nat) : M World bool :=
  gets (fun w => match task_state t (env w) with
                 | Finished => true
                 | _ => false
                 end).

(** [task.cancel()]: a task that is not done is asked to cancel; it sees the
    [CancelledError] when the loop next resumes it. *)
Definition cancel (t : nat) : M World unit :=
  modify (with_env (fun e =>
    match task_state t e with
    | Finished => e
    | _ => set_tasks (<[t := Cancelling]> (tasks e)) e
    end)).

(** [asyncio.create_task(coro)]: the new task has the next free number. *)
Definition create_task : M World nat :=
  w <- get ;;
  modify (with_env (set_tasks (tasks (env w) ++ [Sleeping]))) ;;
  ret (length (tasks (env w))).

(** *** The methods *)

Definition empty_config : KnownFurbiesConfig := mkConfig [].

(** [FurbyCache._load] *)
Definition _load (cache_file : string) : M Env KnownFurbiesConfig :=
  ex <- exists_ cache_file ;;
  if negb ex then ret empty_config
  else
    try_except_Exception
      (data <- open_json_load cache_file ;;
       match KnownFurbiesConfig_validate data with
       | Return config => ret config
       | Raise e => raise e
       end)
      (fun e => ret empty_config).

(** [FurbyCache.__init__] *)
Definition __init__ (cache_file : string) : M Env Cache :=
  config <- _load cache_file ;;
  ret (mkCache cache_file config false None 1).

(** [FurbyCache._save_async] *)
Definition _save_async : M World unit :=
  try_except_Exception
    (w <- get ;;
     zoom env (fun e w => mkWorld (self w) e)
       (mkdir_open_write (cache_file (self w)) (model_dump (config (self w)))))
    (fun e => ret tt).

(** [FurbyCache._schedule_save] *)
Definition _schedule_save : M World unit :=
  w <- get ;;
  match _save_task (self w) with
  | Some t => d <- done_ t ;; if negb d then cancel t else ret tt
  | None => ret tt
  end ;;
  modify (with_self (set__save_pending true)) ;;
  t <- create_task ;;
  modify (with_self (set__save_task (Some t))).

(** The coroutine [delayed_save] of [_schedule_save], from the point where
    the loop resumes task [t] out of [asyncio.sleep(self._save_delay)]: a
    task asked to cancel gets the [CancelledError] there. *)
Definition delayed_save (t : nat) : M World unit :=
  try_except_Cancelled
    (w <- get ;;
     match task_state t (env w) with
     | Cancelling => raise CancelledError
     | _ => ret tt
     end ;;
     _save_async ;;
     modify (with_self (set__save_pending false))).

(** One turn of the event loop on task [t]: a task that is not done runs to
    its end.  The awaits inside [_save_async] are not interleaved with other
    calls: the write is one step. *)
Definition resume (t : nat) : M World unit :=
  d <- done_ t ;;
  if d then ret tt
  else
    delayed_save t ;;
    modify (with_env (fun e => set_tasks (<[t := Finished]> (tasks e)) e)).

(** [FurbyCache._save]: the [try] covers both [get_running_loop()] and
    [_schedule_save()]; the handler is the synchronous write. *)
Definition _save : M World unit :=
  try_except_RuntimeError
    (get_running_loop ;;
     _schedule_save)
    (try_except_Exception
       (w <- get ;;
        zoom env (fun e w => mkWorld (self w) e)
          (mkdir_open_write (cache_file (self w)) (model_dump (config (self w)))))
       (fun e => ret tt)).

(** [xs.sort(key=key, reverse=True)]: Python's sort is stable, also with
    [reverse=True], so of two entries with equal keys the one that came first
    stays first.  [insert_desc x l] puts [x], which came before all of [l],
    in front of the first entry whose key is not greater. *)
Fixpoint insert_desc {A} (key : A -> Z) (x : A) (l : list A) : list A :=
  match l with
  | [] => [x]
  | y :: l' => if (key y <=? key x)%Z then x :: y :: l' else y :: insert_desc key x l'
  end.

Fixpoint sort_desc {A} (key : A -> Z) (l : list A) : list A :=
  match l with
  | [] => []
  | x :: l' => insert_desc key x (sort_desc key l')
  end.

(** [if v is not None: furby.field = v] *)
Definition assign_if_given {A} (v : option A)
    (setter : option A -> KnownFurby -> KnownFurby) (f : KnownFurby) : KnownFurby :=
  match v with
  | Some _ => setter v f
  | None => f
  end.

Definition set_furbies (d : Dict.dict KnownFurby) : M World unit :=
  modify (with_self (set_config (mkConfig d))).

(** [FurbyCache.add_or_update] *)
Definition add_or_update (address : string) (device_name name : option string)
    (name_id : option Z) (firmware_revision : option string) : M World KnownFurby :=
  w <- get ;;
  furby <- match Dict.get address (furbies (config (self w))) with
           | Some f => ret f
           | None =>
               now <- time_time ;;
               ret (mkKnownFurby address now None None None None)
           end ;;
  let furby := assign_if_given device_name set_device_name furby in
  let furby := assign_if_given name set_name furby in
  let furby := assign_if_given name_id set_name_id furby in
  let furby := assign_if_given firmware_revision set_firmware_revision furby in
  now <- time_time ;;
  let furby := set_last_seen now furby in
  w <- get ;;
  set_furbies (Dict.set address furby (furbies (config (self w)))) ;;
  _save ;;
  ret furby.

(** [FurbyCache.get] *)
Definition get_ (address : string) : M World (option KnownFurby) :=
  w <- get ;;
  ret (Dict.get address (furbies (config (self w)))).

(** [FurbyCache.get_all] *)
Definition get_all : M World (list KnownFurby) :=
  w <- get ;;
  let furbies := Dict.values (furbies (config (self w))) in
  let furbies := sort_desc last_seen furbies in
  ret furbies.

(** [FurbyCache.remove] *)
Definition remove (address : string) : M World bool :=
  w <- get ;;
  if Dict.mem address (furbies (config (self w))) then
    set_furbies (Dict.del address (furbies (config (self w)))) ;;
    _save ;;
    ret true
  else ret false.

(** [FurbyCache.clear] *)
Definition clear : M World unit :=
  set_furbies [] ;;
  _save.

(** [FurbyCache.get_addresses] *)
Definition get_addresses : M World (list string) :=
  w <- get ;;
  ret (Dict.keys (furbies (config (self w)))).

(** [FurbyCache.update_name] *)
Definition update_name (address name : string) (name_id : Z) : M World unit :=
  w <- get ;;
  match Dict.get address (furbies (config (self w))) with
  | Some f =>
      let f := set_name (Some name) f in
      let f := set_name_id (Some name_id) f in
      now <- time_time ;;
      let f := set_last_seen now f in
      set_furbies (Dict.set address f (furbies (config (self w)))) ;;
      _save
  | None => ret tt
  end.

(** [FurbyCache.get_most_recent] *)
Definition get_most_recent : M World (option KnownFurby) :=
  furbies <- get_all ;;
  ret (match furbies with
       | f :: _ => Some f
       | [] => None
       end).

(** [FurbyCache.flush]; its await of [_save_async] is one step. *)
Definition flush : M World unit :=
  w <- get ;;
  match _save_task (self w) with
  | Some t => d <- done_ t ;; if negb d then cancel t else ret tt
  | None => ret tt
  end ;;
  _save_async ;;
  modify (with_self (set__save_pending false)).

(** *** The effect of the two ways to save *)

(** The world after a successful write of the current config to the cache
    file. *)
Definition after_write (w : World) : World :=
  with_env (set_fs (<[cache_file (self w) := JsonDoc (model_dump (config (self w)))]>
                      (fs (env w)))) w.

(** The environment after [if task is not None and not task.done(): task.cancel()]. *)
Definition cancel_unfinished (t : option nat) (e : Env) : Env :=
  match t with
  | Some t => match task_state t e with
              | Finished => e
              | _ => set_tasks (<[t := Cancelling]> (tasks e)) e
              end
  | None => e
  end.

(** The world after [_schedule_save]. *)
Definition after_schedule (w : World) : World :=
  let e := cancel_unfinished (_save_task (self w)) (env w) in
  mkWorld (set__save_task (Some (length (tasks e))) (set__save_pending true (self w)))
          (set_tasks (tasks e ++ [Sleeping]) e).

(** *** The mutating calls *)

(** A call of one of the four mutating methods, with its arguments. *)
Inductive Call : Type :=
| AddOrUpdate (address : string) (device_name name : option string)
    (name_id : option Z) (firmware_revision : option string)
| Remove (address : string)
| Clear
| UpdateName (address name : string) (name_id : Z).

Definition call (c : Call) : M World unit :=
  match c with
  | AddOrUpdate a dn n i fw => _ <- add_or_update a dn n i fw ;; ret tt
  | Remove a => _ <- remove a ;; ret tt
  | Clear => clear
  | UpdateName a n i => update_name a n i
  end.

(** Whether the call reaches [self._save()]: [remove] and [update_name] of an
    address that is not cached change nothing and save nothing. *)
Definition saves (c : Call) (w : World) : bool :=
  match c with
  | AddOrUpdate _ _ _ _ _ => true
  | Clear => true
  | Remove a => Dict.mem a (furbies (config (self w)))
  | UpdateName a _ _ => Dict.mem a (furbies (config (self w)))
  end.

(** Two worlds that differ at most in the cached entries and in the number
    of clock readings. *)
Definition same_frame (w w1 : World) : Prop :=
  cache_file (self w1) = cache_file (self w) /\
  _save_pending (self w1) = _save_pending (self w) /\
  _save_task (self w1) = _save_task (self w) /\
  fs (env w1) = fs (env w) /\
  unwritable (env w1) = unwritable (env w) /\
  loop_running (env w1) = loop_running (env w) /\
  tasks (env w1) = tasks (env w).

(** *** Persistence *)

(** The cache file holds the JSON dump of the in-memory config. *)
Definition persisted (w : World) : Prop :=
  fs (env w) !! cache_file (self w) = Some (JsonDoc (model_dump (config (self w)))).

(** Constructing a new cache on the same file gives back the in-memory
    config. *)
Definition reloads (w : World) : Prop :=
  __init__ (cache_file (self w)) (env w) =
  (Return (mkCache (cache_file (self w)) (config (self w)) false None 1), env w).

(** *** Order of [get_all] *)

(** [x] may stand before [y] in a list sorted by [key], greatest first. *)
Definition desc {A} (key : A -> Z) (x y : A) : Prop := (key y <= key x)%Z.

(** *** The life of a cache *)



Definition set_loop_running (v : bool) (e : Env) : Env :=
  mkEnv (fs e) (unwritable e) v (tasks e) (clock e) (ticks e).

(** What can happen to a cache between two observations: a mutating call,
    a flush, a turn of the running loop on some task, the loop starting or
    stopping. *)
Inductive step : World -> World -> Prop :=
| step_call (c : Call) (w : World) : step w (snd (call c w))
| step_flush (w : World) : step w (snd (flush w))
| step_resume (t : nat) (w : World) :
    loop_running (env w) = true -> step w (snd (resume t w))
| step_loop (b : bool) (w : World) : step w (with_env (set_loop_running b) w).

(** The states of a cache constructed when none of its tasks exists yet. *)
Inductive reachable : World -> Prop :=
| reach_init (path : string) (e e' : Env) (c : Cache) :
    tasks e = [] -> __init__ path e = (Return c, e') -> reachable (mkWorld c e')
| reach_step (w w' : World) : reachable w -> step w w' -> reachable w'.


(** *** Concrete states *)

(** A fresh process: no cache file yet, a running loop, no task. *)
Definition demo_env : Env :=
  mkEnv ∅ ∅ true [] (fun n => 1700000000 + Z.of_nat n)%Z 0.

Definition demo_fresh : World :=
  mkWorld (mkCache "known_furbies.json" empty_config false None 1) demo_env.

Definition demo_add (last : string) : Call :=
  AddOrUpdate ("AA:BB:CC:DD:EE:" ++ last)%string (Some "Furby") None None None.

(** After one [add_or_update]: one entry, one sleeping save task. *)
Definition demo_one : World := snd (call (demo_add "00") demo_fresh).

(** The same entry in a process without an event loop. *)
Definition demo_no_loop : World :=
  with_self (set__save_task None)
    (with_env (set_tasks []) (with_env (set_loop_running false) demo_one)).

End FurbyCache.

(** ** [pyfluff/homeassistant.py]

    Calls of [logger] are left out here too. *)
Module HomeAssistant.
Import Json.

(** What [client.publish(topic, payload, retain=...)] hands to the broker.
    A payload is a plain string or the [json.dumps] text of a document. *)
Inductive Payload : Type :=
| Text (s : string)
| JsonText (v : json).

Record Message : Type := mkMessage {
  topic : string;
  payload : Payload;
  retain : bool
}.

(** The [aiomqtt.Client] built by [connect] from the broker settings. *)
Record Client : Type := mkClient {
  hostname : string;
  client_port : Z
}.

(** The attributes of a [HomeAssistantMQTT] instance.  The command callback
    and the subscribe task are references, kept as numbers. *)
Record HomeAssistantMQTT : Type := mkHA {
  broker : string;
  port : Z;
  username : option string;
  password : option string;
  device_id : string;
  device_name : string;
  client : option Client;
  _running : bool;
  _subscribe_task : option nat;
  discovery_prefix : string;
  base_topic : string;
  command_callback : option nat
}.

(** The object together with the broker it talks to: what was published and
    subscribed so far, how many tasks were created, and after how many more
    accepted publishes the link drops ([None]: never). *)
Record World : Type := mkWorld {
  self : HomeAssistantMQTT;
  outbox : list Message;
  subscriptions : list string;
  created_tasks : nat;
  link_budget : option nat
}.

Definition set_command_callback (v : option nat) (h : HomeAssistantMQTT) : HomeAssistantMQTT :=
  mkHA (broker h) (port h) (username h) (password h) (device_id h) (device_name h)
       (client h) (_running h) (_subscribe_task h) (discovery_prefix h) (base_topic h) v.
Definition set__subscribe_task (v : option nat) (h : HomeAssistantMQTT) : HomeAssistantMQTT :=
  mkHA (broker h) (port h) (username h) (password h) (device_id h) (device_name h)
       (client h) (_running h) v (discovery_prefix h) (base_topic h) (command_callback h).
Definition with_self (f : HomeAssistantMQTT -> HomeAssistantMQTT) (w : World) : World :=
  mkWorld (f (self w)) (outbox w) (subscriptions w) (created_tasks w) (link_budget w).

(** [str(n)] and [f"{n}"] of an [int] *)
Definition str_int (z : Z) : string := NilZero.string_of_int (Z.to_int z).

(** [HomeAssistantMQTT.__init__] *)
Definition __init__ (broker : string) (port : Z) (username password : option string)
    (device_id device_name : string) : HomeAssistantMQTT :=
  mkHA broker port username password device_id device_name
       None false None "homeassistant" ("pyfluff/" ++ device_id)%string None.

(** [await self.client.publish(topic, payload, retain=retain)] *)
Definition client_publish (topic : string) (payload : Payload) (retain : bool) : M World unit :=
  w <- get ;;
  match link_budget w with
  | Some O => raise MqttError
  | budget =>
      modify (fun w => mkWorld (self w) (outbox w ++ [mkMessage topic payload retain])
                               (subscriptions w) (created_tasks w) (Nat.pred <$> budget))
  end.

(** [await self.client.subscribe(topic)] *)
Definition client_subscribe (topic : string) : M World unit :=
  modify (fun w => mkWorld (self w) (outbox w) (subscriptions w ++ [topic])
                           (created_tasks w) (link_budget w)).

(** [asyncio.create_task(self._handle_messages())] *)
Definition create_task : M World nat :=
  w <- get ;;
  modify (fun w => mkWorld (self w) (outbox w) (subscriptions w)
                           (S (created_tasks w)) (link_budget w)) ;;
  ret (created_tasks w).

(** [for x in xs: body x] *)
Fixpoint for_each {A} (xs : list A) (body : A -> M World unit) : M World unit :=
  match xs with
  | [] => ret tt
  | x :: xs' => body x ;; for_each xs' body
  end.

(** [HomeAssistantMQTT._get_device_info] *)
Definition _get_device_info (h : HomeAssistantMQTT) (mac_address : option string) : json :=
  let device_info :=
    [ ("identifiers", JArr [JStr (device_id h)]);
      ("name", JStr (device_name h));
      ("manufacturer", JStr "Hasbro");
      ("model", JStr "Furby Connect");
      ("sw_version", JStr "1.0.0") ] in
  match mac_address with
  | Some mac =>
      if String.eqb mac "" then JObj device_info
      else JObj (Dict.set "connections" (JArr [JArr [JStr "mac"; JStr mac]]) device_info)
  | None => JObj device_info
  end.

(** [HomeAssistantMQTT._publish_light_discovery] *)
Definition _publish_light_discovery (device_info : json) : M World unit :=
  w <- get ;;
  match client (self w) with
  | None => ret tt
  | Some _ =>
      let h := self w in
      let config := JObj
        [ ("name", JStr "Antenna LED");
          ("unique_id", JStr (device_id h ++ "_antenna_led"));
          ("device", device_info);
          ("command_topic", JStr (base_topic h ++ "/antenna/set"));
          ("state_topic", JStr (base_topic h ++ "/antenna/state"));
          ("rgb_command_topic", JStr (base_topic h ++ "/antenna/rgb/set"));
          ("rgb_state_topic", JStr (base_topic h ++ "/antenna/rgb/state"));
          ("rgb_command_template", JStr "{{ red }},{{ green }},{{ blue }}");
          ("rgb_value_template", JStr "{{ value }}");
          ("optimistic", JBool false);
          ("qos", JNum 1) ]%string in
      let topic := (discovery_prefix h ++ "/light/" ++ device_id h ++ "/antenna/config")%string in
      client_publish topic (JsonText config) true
  end.

(** [HomeAssistantMQTT._publish_connection_sensor_discovery] *)
Definition _publish_connection_sensor_discovery (device_info : json) : M World unit :=
  w <- get ;;
  match client (self w) with
  | None => ret tt
  | Some _ =>
      let h := self w in
      let config := JObj
        [ ("name", JStr "Connection");
          ("unique_id", JStr (device_id h ++ "_connection"));
          ("device", device_info);
          ("state_topic", JStr (base_topic h ++ "/connection/state"));
          ("icon", JStr "mdi:bluetooth");
          ("qos", JNum 1) ]%string in
      let topic :=
        (discovery_prefix h ++ "/binary_sensor/" ++ device_id h ++ "/connection/config")%string in
      client_publish topic (JsonText config) true
  end.

(** [HomeAssistantMQTT._publish_mood_discovery] *)
Definition _publish_mood_discovery (device_info : json) : M World unit :=
  w <- get ;;
  match client (self w) with
  | None => ret tt
  | Some _ =>
      let h := self w in
      let moods :=
        [ ("excitedness", "Excitedness", "mdi:emoticon-happy");
          ("displeasedness", "Displeasedness", "mdi:emoticon-sad");
          ("tiredness", "Tiredness", "mdi:sleep");
          ("fullness", "Fullness", "mdi:food");
          ("wellness", "Wellness", "mdi:heart-pulse") ] in
      for_each moods (fun '(mood_key, mood_name, icon) =>
        let config := JObj
          [ ("name", JStr mood_name);
            ("unique_id", JStr (device_id h ++ "_" ++ mood_key));
            ("device", device_info);
            ("command_topic", JStr (base_topic h ++ "/mood/" ++ mood_key ++ "/set"));
            ("state_topic", JStr (base_topic h ++ "/mood/" ++ mood_key ++ "/state"));
            ("min", JNum 0);
            ("max", JNum 100);
            ("step", JNum 1);
            ("mode", JStr "slider");
            ("icon", JStr icon);
            ("qos", JNum 1) ]%string in
        let topic :=
          (discovery_prefix h ++ "/number/" ++ device_id h ++ "/" ++ mood_key ++ "/config")%string in
        client_publish topic (JsonText config) true)
  end.

(** [HomeAssistantMQTT._publish_action_buttons_discovery] *)
Definition _publish_action_buttons_discovery (device_info : json) : M World unit :=
  w <- get ;;
  match client (self w) with
  | None => ret tt
  | Some _ =>
      let h := self w in
      let buttons :=
        [ ("giggle", "Giggle", "mdi:emoticon-lol");
          ("puke", "Puke", "mdi:emoticon-sick");
          ("lcd_on", "LCD On", "mdi:eye");
          ("lcd_off", "LCD Off", "mdi:eye-off") ] in
      for_each buttons (fun '(button_key, button_name, icon) =>
        let config := JObj
          [ ("name", JStr button_name);
            ("unique_id", JStr (device_id h ++ "_" ++ button_key));
            ("device", device_info);
            ("command_topic", JStr (base_topic h ++ "/button/" ++ button_key ++ "/press"));
            ("icon", JStr icon);
            ("qos", JNum 1);
            ("payload_press", JStr "PRESS") ]%string in
        let topic :=
          (discovery_prefix h ++ "/button/" ++ device_id h ++ "/" ++ button_key ++ "/config")%string in
        client_publish topic (JsonText config) true)
  end.

(** [HomeAssistantMQTT.publish_discovery] *)
Definition publish_discovery (mac_address : option string) : M World unit :=
  w <- get ;;
  match client (self w) with
  | None => raise (RuntimeError "Not connected to MQTT broker")
  | Some _ =>
      let device_info := _get_device_info (self w) mac_address in
      _publish_light_discovery device_info ;;
      _publish_connection_sensor_discovery device_info ;;
      _publish_mood_discovery device_info ;;
      _publish_action_buttons_discovery device_info
  end.

(** [HomeAssistantMQTT.publish_antenna_state] *)
Definition publish_antenna_state (red green blue : Z) (on : bool) : M World unit :=
  w <- get ;;
  match client (self w) with
  | None => ret tt
  | Some _ =>
      let state := if on then "ON" else "OFF" in
      let rgb_value := (str_int red ++ "," ++ str_int green ++ "," ++ str_int blue)%string in
      client_publish (base_topic (self w) ++ "/antenna/state")%string (Text state) false ;;
      client_publish (base_topic (self w) ++ "/antenna/rgb/state")%string (Text rgb_value) false
  end.

(** [HomeAssistantMQTT.publish_connection_state] *)
Definition publish_connection_state (connected : bool) : M World unit :=
  w <- get ;;
  match client (self w) with
  | None => ret tt
  | Some _ =>
      let state := if connected then "ON" else "OFF" in
      client_publish (base_topic (self w) ++ "/connection/state")%string (Text state) false
  end.

(** [HomeAssistantMQTT.publish_mood_state] *)
Definition publish_mood_state (mood_type : string) (value : Z) : M World unit :=
  w <- get ;;
  match client (self w) with
  | None => ret tt
  | Some _ =>
      client_publish (base_topic (self w) ++ "/mood/" ++ mood_type ++ "/state")%string
                     (Text (str_int value)) false
  end.

(** [HomeAssistantMQTT.subscribe_to_commands] *)
Definition subscribe_to_commands (callback : nat) : M World unit :=
  w <- get ;;
  match client (self w) with
  | None => raise (RuntimeError "Not connected to MQTT broker")
  | Some _ =>
      modify (with_self (set_command_callback (Some callback))) ;;
      let topics :=
        [ base_topic (self w) ++ "/antenna/set";
          base_topic (self w) ++ "/antenna/rgb/set";
          base_topic (self w) ++ "/mood/+/set";
          base_topic (self w) ++ "/button/+/press" ]%string in
      for_each topics client_subscribe ;;
      t <- create_task ;;
      modify (with_self (set__subscribe_task (Some t)))
  end.

(** *** What a publisher may change *)

(** From [w] to [w'] messages were handed to the broker and nothing else
    happened: the object has the same value in every attribute, nothing was
    subscribed, no task was created. *)
Definition only_published (w w' : World) : Prop :=
  self w' = self w /\
  subscriptions w' = subscriptions w /\
  created_tasks w' = created_tasks w /\
  exists msgs, outbox w' = outbox w ++ msgs.

End HomeAssistant.

(** ** The DLC transfer core

    [pyfluff/dlc.py] is not among the sources; the definitions of this module
    follow sections 3, 4.2, 4.3 and 4.4 of the specification. *)
Module DLC.

#[local] Open Scope nat_scope.

(** *** Slots *)

(** Modelled from the spec: the slot states of section 3, in the order of
    the debug menu's codes 0 to 3 ([scripts/create_copilot_dlc.py]). *)
Inductive SlotState : Type :=
| Empty
| Uploading
| Uploaded
| Active.

#[global] Instance SlotState_eq_dec : EqDecision SlotState.
Proof. solve_decision. Defined.

(** Modelled from the spec: [SlotRegistry], the in-memory mirror of the
    fixed set of slots; slot [i] is position [i]. *)
Abbreviation SlotRegistry := (list SlotState).

(** Modelled from the spec: the lifecycle operations of section 4.4. *)
Inductive Operation : Type :=
| OpLoad (slot : nat)
| OpActivate (slot : nat)
| OpDeactivate
| OpDelete (slot : nat).

(** Modelled from the spec: the error taxonomy of section 7.  The spec names
    no error for a [load] or [activate] whose slot is not [Uploaded];
    [NotUploaded] stands for that refusal. *)
Inductive TransferError : Type :=
| InvalidSlot
| PayloadTooLarge
| SlotBusy
| SlotInUse
| NotUploaded
| NotReady
| CompletionTimeout
| Unacknowledged (operation : Operation)
| ChunkFailed (offset : nat).

(** Modelled from the spec: the terminal values of [outcome]. *)
Inductive Outcome : Type :=
| Succeeded
| Failed (reason : TransferError).

(** Modelled from the spec: what the bounded wait for the device's
    acknowledgment ends with. *)
Inductive Reply : Type :=
| Acked
| TimedOut.

(** Modelled from the spec: what the core hands to the transport
    ([write]) or waits for ([await_signal]), in order. *)
Inductive Event : Type :=
| SendStart (slot total_length : nat) (ack_mode : bool)
| SendLifecycle (operation : Operation)
| Write (bytes : list Byte.byte)
| AwaitReady
| AwaitChunkAck
| AwaitCompletion
| AwaitLifecycleAck.

(** Modelled from the spec: "exactly zero or one slot may be [Active] at a
    time". *)
Definition at_most_one_active (reg : SlotRegistry) : Prop :=
  forall i j, reg !! i = Some Active -> reg !! j = Some Active -> i = j.

(** *** SlotLifecycleController (section 4.4) *)

(** Modelled from the spec: what each operation requires of the registry
    before any device I/O. *)
Definition validate (op : Operation) (reg : SlotRegistry) : option TransferError :=
  match op with
  | OpLoad slot | OpActivate slot =>
      match reg !! slot with
      | None => Some InvalidSlot
      | Some Uploaded => None
      | Some _ => Some NotUploaded
      end
  | OpDeactivate => None
  | OpDelete slot =>
      match reg !! slot with
      | None => Some InvalidSlot
      | Some Active => Some SlotInUse
      | Some _ => None
      end
  end.

(** Modelled from the spec: "demotes any previously [Active] slot to
    [Uploaded]". *)
Definition demote_active (reg : SlotRegistry) : SlotRegistry :=
  (fun s => match s with
            | Active => Uploaded
            | _ => s
            end) <$> reg.

(** Modelled from the spec: the registry states an acknowledged operation
    passes through, one registry mutation after the other, the state before
    the operation first.  [activate] demotes, then promotes. *)
Definition observable_states (op : Operation) (reg : SlotRegistry) : list SlotRegistry :=
  match op with
  | OpLoad _ => [reg]
  | OpActivate slot => [reg; demote_active reg; <[slot := Active]> (demote_active reg)]
  | OpDeactivate => [reg; demote_active reg]
  | OpDelete slot => [reg; <[slot := Empty]> reg]
  end.

(** Modelled from the spec: the registry an acknowledged operation ends
    in. *)
Definition committed (op : Operation) (reg : SlotRegistry) : SlotRegistry :=
  List.last (observable_states op reg) reg.

(** Modelled from the spec: one lifecycle operation.  A request that fails
    validation is refused before any I/O; otherwise the single command is
    sent and the acknowledgment awaited, and only an acknowledgment lets the
    registry change. *)
Definition lifecycle (op : Operation) (reply : Reply) (reg : SlotRegistry)
    : Outcome * SlotRegistry * list Event :=
  match validate op reg with
  | Some e => (Failed e, reg, [])
  | None =>
      match reply with
      | TimedOut => (Failed (Unacknowledged op), reg, [SendLifecycle op; AwaitLifecycleAck])
      | Acked => (Succeeded, committed op reg, [SendLifecycle op; AwaitLifecycleAck])
      end
  end.

(** Modelled from the spec: [load], [activate], [deactivate], [delete]. *)
Definition load (slot : nat) := lifecycle (OpLoad slot).
Definition activate (slot : nat) := lifecycle (OpActivate slot).
Definition deactivate := lifecycle OpDeactivate.
Definition delete (slot : nat) := lifecycle (OpDelete slot).

(** *** ChunkScheduler (section 4.2) *)

(** Modelled from the spec: the device and link as one upload meets them. *)
Record Device : Type := mkDevice {
  max_payload : nat;                (* largest payload the device takes *)
  ready_arrives : bool;             (* the "ready" signal comes in time *)
  write_fails_at : option nat;      (* the chunk write that fails, if any *)
  ack_missing_at : option nat;      (* the chunk whose ack never comes, if any *)
  completion_arrives : bool         (* the "transfer complete" signal comes in time *)
}.

(** Modelled from the spec: successive pieces of [chunk_size] bytes while
    bytes remain; [fuel] bounds the number of pieces. *)
Fixpoint pieces (fuel chunk_size : nat) (payload : list Byte.byte) : list (list Byte.byte) :=
  match fuel with
  | O => []
  | S fuel' =>
      match payload with
      | [] => []
      | _ => take chunk_size payload :: pieces fuel' chunk_size (drop chunk_size payload)
      end
  end.

(** Modelled from the spec: "splits [payload] into chunks of at most
    [chunk_size] bytes (last chunk may be shorter ...)".  A zero-length payload
    has no chunk: [ceil(0 / chunk_size)] is zero. *)
Definition split_payload (chunk_size : nat) (payload : list Byte.byte) : list (list Byte.byte) :=
  pieces (length payload) chunk_size payload.

(** Modelled from the spec: the chunks from number [index] at byte [offset]
    on.  Each is written, in step-ack mode its acknowledgment is awaited, and
    the progress callback gets the cumulative byte count; a failed write or a
    missing acknowledgment ends the send with [ChunkFailed]. *)
Fixpoint send_from (dev : Device) (ack_mode : bool) (index offset : nat)
    (chunks : list (list Byte.byte)) : Outcome * list Event * list nat :=
  match chunks with
  | [] => (Succeeded, [], [])
  | chunk :: rest =>
      if bool_decide (write_fails_at dev = Some index) then
        (Failed (ChunkFailed offset), [Write chunk], [])
      else if ack_mode && bool_decide (ack_missing_at dev = Some index) then
        (Failed (ChunkFailed offset), [Write chunk; AwaitChunkAck], [])
      else
        let '(outcome, events, progress) :=
          send_from dev ack_mode (S index) (offset + length chunk) rest in
        (outcome,
         Write chunk :: (if ack_mode then [AwaitChunkAck] else []) ++ events,
         (offset + length chunk) :: progress)
  end.

(** Modelled from the spec: [ChunkScheduler.send].  "Zero-length payload is
    a single empty send, not an error": one write of no bytes, which is no
    chunk and has no per-chunk acknowledgment.  The result carries the
    transport events and the values handed to the progress callback. *)
Definition send (dev : Device) (payload : list Byte.byte) (chunk_size : nat) (ack_mode : bool)
    : Outcome * list Event * list nat :=
  match payload with
  | [] =>
      if bool_decide (write_fails_at dev = Some 0) then (Failed (ChunkFailed 0), [Write []], [])
      else (Succeeded, [Write []], [])
  | _ => send_from dev ack_mode 0 0 (split_payload chunk_size payload)
  end.

(** *** TransferSession (section 4.3) *)

(** Modelled from the spec: the one in-flight session, its slot and the
    state the slot had before. *)
Record Session : Type := mkSession {
  session_slot : nat;
  prior : SlotState
}.

(** Modelled from the spec: the registry and the single-session gate. *)
Record System : Type := mkSystem {
  registry : SlotRegistry;
  session : option Session
}.

(** Modelled from the spec: [request] validates the slot index, the single
    session gate and the payload size, then marks the slot [Uploading]. *)
Definition request (dev : Device) (slot size : nat) (sys : System) : Outcome * System :=
  match registry sys !! slot with
  | None => (Failed InvalidSlot, sys)
  | Some st =>
      match session sys with
      | Some _ => (Failed SlotBusy, sys)
      | None =>
          if max_payload dev <? size then (Failed PayloadTooLarge, sys)
          else (Succeeded,
                mkSystem (<[slot := Uploading]> (registry sys)) (Some (mkSession slot st)))
      end
  end.

(** Modelled from the spec: [Committed], "slot -> Uploaded". *)
Definition commit (sys : System) : System :=
  match session sys with
  | Some s => mkSystem (<[session_slot s := Uploaded]> (registry sys)) None
  | None => sys
  end.

(** Modelled from the spec: [Aborted], "slot -> Empty, unless it was already
    Uploaded before this session". *)
Definition abort (sys : System) : System :=
  match session sys with
  | Some s =>
      mkSystem (<[session_slot s := match prior s with
                                     | Uploaded => Uploaded
                                     | _ => Empty
                                     end]> (registry sys)) None
  | None => sys
  end.

(** Modelled from the spec: one upload from [request] to its terminal state.
    [chunk_size] is the size the session negotiated, within the link's
    maximum write size. *)
Definition upload (dev : Device) (slot : nat) (payload : list Byte.byte) (chunk_size : nat)
    (ack_mode : bool) (sys : System) : Outcome * System * list Event :=
  match request dev slot (length payload) sys with
  | (Failed e, _) => (Failed e, sys, [])
  | (Succeeded, reserved) =>
      let negotiate := [SendStart slot (length payload) ack_mode; AwaitReady] in
      if negb (ready_arrives dev) then (Failed NotReady, abort reserved, negotiate)
      else
        let '(sent, events, _) := send dev payload chunk_size ack_mode in
        match sent with
        | Failed e => (Failed e, abort reserved, negotiate ++ events)
        | Succeeded =>
            if completion_arrives dev then
              (Succeeded, commit reserved, negotiate ++ events ++ [AwaitCompletion])
            else
              (Failed CompletionTimeout, abort reserved, negotiate ++ events ++ [AwaitCompletion])
        end
  end.

(** Modelled from the spec: what can happen to the registry, that is the
    three registry mutations of a session and a lifecycle operation with the
    device's reply. *)
Inductive step : System -> System -> Prop :=
| step_request (dev : Device) (slot size : nat) (sys : System) :
    step sys (snd (request dev slot size sys))
| step_commit (sys : System) : step sys (commit sys)
| step_abort (sys : System) : step sys (abort sys)
| step_lifecycle (op : Operation) (reply : Reply) (sys : System) :
    step sys (mkSystem (snd (fst (lifecycle op reply (registry sys)))) (session sys)).

(** Modelled from the spec: the registry starts as the device's slot status,
    which the device keeps to at most one [Active] slot, or as all [Empty]
    when the status is unavailable. *)
Inductive reachable : System -> Prop :=
| reach_default (slots : nat) : reachable (mkSystem (replicate slots Empty) None)
| reach_status (status : SlotRegistry) :
    at_most_one_active status -> reachable (mkSystem status None)
| reach_step (sys sys' : System) : reachable sys -> step sys sys' -> reachable sys'.

(** [ceil(n / d)] *)
Definition ceil_div (n d : nat) : nat := (n + d - 1) / d.

(** The events of sending [chunks] when every write and every awaited
    acknowledgment succeeds. *)
Definition chunk_events (ack_mode : bool) (chunks : list (list Byte.byte)) : list Event :=
  flat_map (fun c => Write c :: (if ack_mode then [AwaitChunkAck] else [])) chunks.

(** *** Concrete states *)

(** Four slots as the device reports them, slot 1 active. *)
Definition demo_status : SlotRegistry := [Empty; Active; Empty; Empty].

(** A device that answers every wait. *)
Definition demo_device : Device := mkDevice 4096 true None None true.

(** The 1600 bytes of [test_dlc_async_file_read]. *)
Definition demo_payload : list Byte.byte :=
  concat (replicate 100 (list_byte_of_string "TEST DLC CONTENT")).

Definition is_write (e : Event) : bool :=
  match e with
  | Write _ => true
  | _ => false
  end.

(** The system after the upload of the scenario. *)
Definition demo_uploaded : System :=
  snd (fst (upload demo_device 2 demo_payload 200 false (mkSystem demo_status None))).

End DLC.

(** ** [pyfluff/homeassistant.py]: the connection and the message handler

    [connect], [disconnect] and [_handle_messages], on the object of
    [HomeAssistant] together with what the broker end and the command
    callback do. *)
Module HomeAssistantLink.
Import Json HomeAssistant.

(** A keyword argument of [aiomqtt.Client(...)]. *)
Inductive KwArg : Type :=
| KwStr (s : string)
| KwInt (z : Z).

(** [message.payload] as the handler tests and decodes it: nothing ([None]
    or empty, falsy), bytes that decode to a text, or bytes on which
    [decode()] raises.  The exception it raises then is a
    [UnicodeDecodeError], an [Exception] subclass that [Py.exn] does not list:
    it is carried as [error]. *)
Inductive RawPayload : Type :=
| NoPayload
| Utf8 (text : string)
| Undecodable (error : exn).

(** A message the client's [messages] iterator yields. *)
Record Incoming : Type := mkIncoming {
  in_topic : string;
  in_payload : RawPayload
}.

(** The object and its broker, with the connection and the callback side:
    whether [__aenter__] and [__aexit__] succeed, the keyword arguments of
    every client construction, the tasks [cancel()] was called on, the calls
    of the command callback in order, and what each call raises.  The
    callback is foreign code: of its effects only the call and the exception
    are kept. *)
Record Net : Type := mkNet {
  ha : World;
  broker_up : bool;
  exit_fails : bool;
  constructed : list (Dict.dict KwArg);
  cancelled : list nat;
  invoked : list (nat * string * string);
  callback_raises : nat -> string -> string -> option exn
}.

Definition with_ha (f : World -> World) (n : Net) : Net :=
  mkNet (f (ha n)) (broker_up n) (exit_fails n) (constructed n) (cancelled n) (invoked n)
        (callback_raises n).
Definition set_client (v : option Client) (h : HomeAssistantMQTT) : HomeAssistantMQTT :=
  mkHA (broker h) (port h) (username h) (password h) (device_id h) (device_name h)
       v (_running h) (_subscribe_task h) (discovery_prefix h) (base_topic h)
       (command_callback h).
Definition set__running (v : bool) (h : HomeAssistantMQTT) : HomeAssistantMQTT :=
  mkHA (broker h) (port h) (username h) (password h) (device_id h) (device_name h)
       (client h) v (_subscribe_task h) (discovery_prefix h) (base_topic h)
       (command_callback h).

(** [try: c  finally: f] *)
Definition try_finally {S A} (c : M S A) (f : M S unit) : M S A :=
  fun s =>
    let (r, s') := c s in
    match f s' with
    | (Return _, s'') => (r, s'')
    | (Raise e, s'') => (Raise e, s'')
    end.

(** The truth value of a [str | None]: [None] and [""] are false. *)
Definition truthy (s : option string) : bool :=
  match s with
  | Some s => negb (String.eqb s "")
  | None => false
  end.

(** The property [HomeAssistantMQTT.running] *)
Definition running (n : Net) : bool := _running (self (ha n)).

(** [aiomqtt.Client] called with [client_kwargs] unpacked: the construction
    is recorded. *)
Definition new_client (client_kwargs : Dict.dict KwArg) : M Net (option Client) :=
  modify (fun n => mkNet (ha n) (broker_up n) (exit_fails n)
                         (constructed n ++ [client_kwargs]) (cancelled n) (invoked n)
                         (callback_raises n)) ;;
  ret (match Dict.get "hostname" client_kwargs, Dict.get "port" client_kwargs with
       | Some (KwStr host), Some (KwInt port) => Some (mkClient host port)
       | _, _ => None
       end).

(** [await self.client.__aenter__()] *)
Definition client_aenter : M Net unit :=
  n <- get ;;
  if broker_up n then ret tt else raise MqttError.

(** [await self.client.__aexit__(None, None, None)] *)
Definition client_aexit : M Net unit :=
  n <- get ;;
  if exit_fails n then raise MqttError else ret tt.

(** [HomeAssistantMQTT.connect]: the handler logs and re-raises. *)
Definition connect : M Net unit :=
  try_except_Exception
    (n <- get ;;
     let h := self (ha n) in
     let client_kwargs := [("hostname", KwStr (broker h)); ("port", KwInt (port h))] in
     let client_kwargs :=
       match username h, password h with
       | Some u, Some p =>
           if truthy (username h) && truthy (password h) then
             Dict.set "password" (KwStr p) (Dict.set "username" (KwStr u) client_kwargs)
           else client_kwargs
       | _, _ => client_kwargs
       end in
     c <- new_client client_kwargs ;;
     modify (with_ha (with_self (set_client c))) ;;
     client_aenter ;;
     modify (with_ha (with_self (set__running true))))
    (fun e => raise e).

(** [self._subscribe_task.cancel()] followed by awaiting the task, whose
    [CancelledError] is passed over. *)
Definition cancel_and_await (t : nat) : M Net unit :=
  modify (fun n => mkNet (ha n) (broker_up n) (exit_fails n) (constructed n)
                         (cancelled n ++ [t]) (invoked n) (callback_raises n)).

(** [HomeAssistantMQTT.disconnect] *)
Definition disconnect : M Net unit :=
  modify (with_ha (with_self (set__running false))) ;;
  n <- get ;;
  match _subscribe_task (self (ha n)) with
  | Some t => cancel_and_await t
  | None => ret tt
  end ;;
  n <- get ;;
  match client (self (ha n)) with
  | Some _ =>
      try_finally
        (try_except_Exception client_aexit (fun e => ret tt))
        (modify (with_ha (with_self (set_client None))))
  | None => ret tt
  end.

(** [message.payload.decode() if message.payload else ""] *)
Definition decode_payload (p : RawPayload) : M Net string :=
  match p with
  | NoPayload => ret ""
  | Utf8 text => ret text
  | Undecodable e => raise e
  end.

(** [await self.command_callback(topic, payload)] *)
Definition call_callback (cb : nat) (topic payload : string) : M Net unit :=
  n <- get ;;
  modify (fun n => mkNet (ha n) (broker_up n) (exit_fails n) (constructed n) (cancelled n)
                         (invoked n ++ [(cb, topic, payload)]) (callback_raises n)) ;;
  match callback_raises n cb topic payload with
  | Some e => raise e
  | None => ret tt
  end.

(** The body of [async for message in self.client.messages], over the
    messages that arrive before the iterator ends. *)
Fixpoint message_loop (messages : list Incoming) : M Net unit :=
  match messages with
  | [] => ret tt
  | message :: rest =>
      let topic := in_topic message in
      payload <- decode_payload (in_payload message) ;;
      n <- get ;;
      match command_callback (self (ha n)) with
      | Some cb =>
          try_except_Exception (call_callback cb topic payload) (fun e => ret tt)
      | None => ret tt
      end ;;
      message_loop rest
  end.

(** [HomeAssistantMQTT._handle_messages]: the two [except] clauses,
    [CancelledError] first, both only log. *)
Definition _handle_messages (messages : list Incoming) : M Net unit :=
  n <- get ;;
  match client (self (ha n)) with
  | None => ret tt
  | Some _ =>
      try_except_Exception
        (try_except_Cancelled (message_loop messages))
        (fun e => ret tt)
  end.

(** The methods of [HomeAssistant] on the object inside a [Net]. *)
Definition on_ha {A} (c : M World A) : M Net A :=
  zoom ha (fun w n => with_ha (fun _ => w) n) c.

(** *** What the handler passes on *)

(** The text [decode_payload] gives for a payload, when it gives one. *)
Definition payload_text (p : RawPayload) : option string :=
  match p with
  | NoPayload => Some ""
  | Utf8 text => Some text
  | Undecodable _ => None
  end.

(** The calls [cb(topic, payload)] for the messages whose payload decodes,
    in the order of the messages. *)
Definition calls (cb : nat) (messages : list Incoming) : list (nat * string * string) :=
  omap (fun m => (fun text => (cb, in_topic m, text)) <$> payload_text (in_payload m))
       messages.

(** The state after the calls [cs] of the callback. *)
Definition with_calls (cs : list (nat * string * string)) (n : Net) : Net :=
  mkNet (ha n) (broker_up n) (exit_fails n) (constructed n) (cancelled n) (invoked n ++ cs)
        (callback_raises n).

(** From [n] to [n'] the command callback was called and nothing else
    happened. *)
Definition only_invoked (n n' : Net) : Prop :=
  ha n' = ha n /\
  broker_up n' = broker_up n /\
  exit_fails n' = exit_fails n /\
  constructed n' = constructed n /\
  cancelled n' = cancelled n /\
  callback_raises n' = callback_raises n /\
  exists cs, invoked n' = invoked n ++ cs.

(** *** Concrete states *)

(** A fresh object of the demo in front of a broker that answers. *)
Definition demo_net (user pass : option string) : Net :=
  mkNet (mkWorld (__init__ "localhost" 1883 user pass "furby_demo" "Demo Furby")
                 [] [] 0 None)
        true false [] [] [] (fun _ _ _ => None).

(** The demo object connected, with callback 7 installed; the callback
    raises on the puke button. *)
Definition demo_listening : Net :=
  let mqtt := __init__ "localhost" 1883 None None "furby_demo" "Demo Furby" in
  mkNet (mkWorld (set_command_callback (Some 7%nat)
                    (set__running true (set_client (Some (mkClient "localhost" 1883)) mqtt)))
                 [] [] 0 None)
        true false [] [] []
        (fun _ topic _ =>
           if String.eqb topic "pyfluff/furby_demo/button/puke/press"
           then Some (RuntimeError "Furby not connected") else None).

(** Three commands as the broker delivers them. *)
Definition demo_commands : list Incoming :=
  [ mkIncoming "pyfluff/furby_demo/antenna/rgb/set" (Utf8 "255,0,0");
    mkIncoming "pyfluff/furby_demo/button/puke/press" (Utf8 "PRESS");
    mkIncoming "pyfluff/furby_demo/mood/fullness/set" NoPayload ].

End HomeAssistantLink.

(** ** Reading what was published

    What an MQTT consumer sees of a message, and the state publishing of
    [examples/homeassistant_demo.py]. *)
Module Announced.
Import Json HomeAssistant.

(** A member of a JSON object. *)
Definition json_field (k : string) (v : json) : option json :=
  match v with
  | JObj members => Dict.get k members
  | _ => None
  end.

(** The string under [field] in the JSON config a discovery message
    carries. *)
Definition announced (field : string) (m : Message) : option string :=
  match payload m with
  | JsonText v => json_field field v ≫= as_str
  | Text _ => None
  end.

(** The topics on which a discovery config says the entity's state will
    arrive. *)
Definition state_topics (m : Message) : list string :=
  option_list (announced "state_topic" m) ++ option_list (announced "rgb_state_topic" m).

(** The topics on which a discovery config says the entity takes commands. *)
Definition command_topics (m : Message) : list string :=
  option_list (announced "command_topic" m) ++ option_list (announced "rgb_command_topic" m).

(** [main] of [examples/homeassistant_demo.py], "Publish initial states":
    the connection state, the antenna state and the five moods. *)
Definition publish_initial_states : M World unit :=
  publish_connection_state true ;;
  publish_antenna_state 0 0 0 false ;;
  for_each ["excitedness"; "displeasedness"; "tiredness"; "fullness"; "wellness"]
    (fun mood => publish_mood_state mood 50).

(** The level separator ["/"]. *)
Definition slash : Ascii.ascii := Ascii.ascii_of_nat 47.

(** The levels of a topic or of a topic filter: the pieces between the
    ["/"]; [level] is the piece being read. *)
Fixpoint levels_from (level : string) (s : string) : list string :=
  match s with
  | EmptyString => [level]
  | String c s' =>
      if Ascii.eqb c slash then level :: levels_from "" s'
      else levels_from (level ++ String c "") s'
  end.

Definition levels (s : string) : list string := levels_from "" s.

(** A topic filter without ["#"] against a topic, level by level: ["+"]
    stands for any one level (MQTT 3.1.1, section 4.7.1.3). *)
Fixpoint levels_match (filter topic : list string) : bool :=
  match filter, topic with
  | [], [] => true
  | f :: filter', t :: topic' =>
      (String.eqb f "+" || String.eqb f t) && levels_match filter' topic'
  | _, _ => false
  end.

Definition topic_matches (filter topic : string) : bool :=
  levels_match (levels filter) (levels topic).

(** The same world with another link budget. *)
Definition with_link_budget (budget : option nat) (w : World) : World :=
  mkWorld (self w) (outbox w) (subscriptions w) (created_tasks w) budget.

(** The demo object with a client, as [connect] leaves it, on a link that
    holds. *)
Definition demo_connected : World :=
  let mqtt := __init__ "localhost" 1883 None None "furby_demo" "Demo Furby" in
  mkWorld (mkHA (broker mqtt) (port mqtt) (username mqtt) (password mqtt) (device_id mqtt)
                (device_name mqtt) (Some (mkClient "localhost" 1883)) true None
                (discovery_prefix mqtt) (base_topic mqtt) None)
          [] [] 0 None.

End Announced.

(** ** Theory of [FurbyCache] *)
Module CacheTheory.
Import Json Models FurbyCache.

(** *** Facts about dictionaries and the JSON form of a config *)
Section DictFacts.
Context {V : Type}.
Implicit Types (d : Dict.dict V) (k : string) (v : V).

Lemma dict_mem_keys k d : Dict.mem k d = true <-> k ∈ Dict.keys d.
Proof.
  unfold Dict.mem. induction d as [|[k' v'] d IH]; simpl.
  - split; [discriminate | intros H; inversion H].
  - destruct (String.eqb_spec k k') as [->|Hne].
    + split; [intros _; left | reflexivity].
    + rewrite IH. split; [right; assumption|].
      intros H. inversion H; subst; [contradiction | assumption].
Qed.

Lemma dict_get_None_keys k d : Dict.get k d = None <-> k ∉ Dict.keys d.
Proof.
  rewrite <- dict_mem_keys. unfold Dict.mem.
  destruct (Dict.get k d); split; try congruence; intros H; exfalso; apply H; reflexivity.
Qed.

Lemma dict_set_fresh k v d : k ∉ Dict.keys d -> Dict.set k v d = d ++ [(k, v)].
Proof.
  induction d as [|[k' v'] d IH]; simpl; intros Hk; [reflexivity|].
  destruct (String.eqb_spec k k') as [->|Hne].
  - exfalso. apply Hk. left.
  - f_equal. apply IH. intros H. apply Hk. right. exact H.
Qed.

Lemma dict_keys_set_known k v d : k ∈ Dict.keys d -> Dict.keys (Dict.set k v d) = Dict.keys d.
Proof.
  induction d as [|[k' v'] d IH]; simpl; intros Hk; [inversion Hk|].
  destruct (String.eqb_spec k k') as [->|Hne]; [reflexivity|].
  simpl. f_equal. apply IH. inversion Hk; subst; [contradiction | assumption].
Qed.

Lemma dict_wf_set k v d : Dict.wf d -> Dict.wf (Dict.set k v d).
Proof.
  unfold Dict.wf. intros Hd.
  destruct (decide (k ∈ Dict.keys d)) as [Hin|Hout].
  - rewrite dict_keys_set_known by assumption. exact Hd.
  - rewrite dict_set_fresh by assumption. unfold Dict.keys. rewrite map_app. simpl.
    apply NoDup_app. split; [exact Hd|]. split.
    + intros x Hx Hx'. apply list_elem_of_singleton in Hx'. subst. contradiction.
    + apply NoDup_singleton.
Qed.

Lemma dict_keys_del_sublist k d : Dict.keys (Dict.del k d) `sublist_of` Dict.keys d.
Proof.
  induction d as [|[k' v'] d IH]; simpl; [constructor|].
  destruct (String.eqb_spec k k'); simpl.
  - apply sublist_cons. reflexivity.
  - apply sublist_skip. exact IH.
Qed.

Lemma dict_wf_del k d : Dict.wf d -> Dict.wf (Dict.del k d).
Proof.
  unfold Dict.wf. intros Hd.
  eapply sublist_NoDup; [exact Hd | apply dict_keys_del_sublist].
Qed.

Lemma py_dict_from acc (l : list (string * V)) :
  NoDup (Dict.keys (acc ++ l)) ->
  fold_left (fun d kv => Dict.set (fst kv) (snd kv) d) l acc = acc ++ l.
Proof.
  revert acc. induction l as [|[k v] l IH]; intros acc Hnd; simpl.
  - symmetry. apply app_nil_r.
  - rewrite dict_set_fresh.
    + rewrite IH; rewrite <- app_assoc; [reflexivity | exact Hnd].
    + unfold Dict.keys in Hnd. rewrite map_app in Hnd. simpl in Hnd.
      apply NoDup_app in Hnd as (_ & Hdisj & _).
      intros Hin. apply (Hdisj k Hin). left.
Qed.

Lemma py_dict_wf (l : list (string * V)) : Dict.wf l -> Json.py_dict l = l.
Proof. intros Hl. unfold Json.py_dict. apply (py_dict_from [] l). exact Hl. Qed.

End DictFacts.

Lemma KnownFurby_validate_dump (f : KnownFurby) :
  KnownFurby_validate (KnownFurby_model_dump f) = Some f.
Proof.
  destruct f as [a t n i dn fw].
  destruct n, i, dn, fw; reflexivity.
Qed.

Lemma validate_furbies_dump (d : Dict.dict KnownFurby) :
  validate_furbies (map (fun kv => (fst kv, KnownFurby_model_dump (snd kv))) d) = Some d.
Proof.
  induction d as [|[k f] d IH]; [reflexivity|].
  cbn [map fst snd validate_furbies].
  rewrite KnownFurby_validate_dump, IH. reflexivity.
Qed.

Lemma validate_model_dump (c : KnownFurbiesConfig) :
  Dict.wf (furbies c) -> KnownFurbiesConfig_validate (model_dump c) = Return c.
Proof.
  intros Hwf. destruct c as [d]. simpl in Hwf.
  unfold model_dump, KnownFurbiesConfig_validate. cbn [furbies].
  change (Json.py_dict [("furbies", ?x)]) with [("furbies", x)].
  cbn [Dict.get String.eqb Ascii.eqb Bool.eqb].
  rewrite py_dict_wf.
  - rewrite validate_furbies_dump. reflexivity.
  - unfold Dict.wf, Dict.keys in *. rewrite map_map. simpl. exact Hwf.
Qed.

(** *** Construction *)

Lemma validate_raises_Exception (v : json) (e : exn) :
  KnownFurbiesConfig_validate v = Raise e -> is_Exception e = true.
Proof.
  unfold KnownFurbiesConfig_validate.
  destruct v as [| | | | |members]; try (intros [= <-]; reflexivity).
  destruct (Dict.get "furbies" (Json.py_dict members)) as [[| | | | |fs]|];
    try (intros [= <-]; reflexivity).
  destruct (validate_furbies (Json.py_dict fs)); intros [= <-]; reflexivity.
Qed.

Lemma _load_run (path : string) (e : Env) :
  _load path e =
  (Return match fs e !! path with
          | Some (JsonDoc v) =>
              match KnownFurbiesConfig_validate v with
              | Return c => c
              | Raise _ => empty_config
              end
          | _ => empty_config
          end, e).
Proof.
  unfold _load, exists_, open_json_load, try_except_Exception, bind, gets, get, ret, raise.
  destruct (fs e !! path) as [[| raw | v]|] eqn:Hf; cbn; rewrite ?Hf; cbn; try reflexivity.
  destruct (KnownFurbiesConfig_validate v) as [c|x] eqn:Hv; [reflexivity|].
  cbn. rewrite (validate_raises_Exception v x Hv). reflexivity.
Qed.


(** A file that holds the dump of a well-formed config loads back to it. *)
Lemma init_reloads (path : string) (e : Env) (c : KnownFurbiesConfig) :
  Dict.wf (furbies c) ->
  fs e !! path = Some (JsonDoc (model_dump c)) ->
  __init__ path e = (Return (mkCache path c false None 1), e).
Proof.
  intros Hwf Hf. unfold __init__, bind. rewrite _load_run, Hf.
  rewrite validate_model_dump by exact Hwf. reflexivity.
Qed.

(** *** Saving *)

Lemma bind_run {S A B} (c : M S A) (k : A -> M S B) (s s' : S) (a : A) :
  c s = (Return a, s') -> bind c k s = k a s'.
Proof. unfold bind. intros ->. reflexivity. Qed.

Lemma _save_async_run (w : World) :
  _save_async w =
  (Return tt, if bool_decide (cache_file (self w) ∈ unwritable (env w)) then w else after_write w).
Proof.
  destruct w as [c e].
  unfold _save_async, try_except_Exception, bind, get, zoom, mkdir_open_write, modify, raise, ret.
  cbn. destruct (bool_decide (cache_file c ∈ unwritable e)); reflexivity.
Qed.

Lemma _schedule_save_run (w : World) :
  _schedule_save w = (Return tt, after_schedule w).
Proof.
  destruct w as [c e].
  unfold _schedule_save, after_schedule, cancel_unfinished, create_task, cancel, done_,
    bind, get, gets, modify, ret, with_env, with_self.
  cbn. destruct (_save_task c) as [t|]; cbn; [|reflexivity].
  destruct (task_state t e) eqn:Ht; cbn; rewrite ?Ht; reflexivity.
Qed.

Lemma _save_running (w : World) :
  loop_running (env w) = true -> _save w = (Return tt, after_schedule w).
Proof.
  intros Hl. unfold _save, try_except_RuntimeError.
  rewrite (bind_run _ _ w w tt).
  - rewrite _schedule_save_run. reflexivity.
  - unfold get_running_loop, bind, get. rewrite Hl. reflexivity.
Qed.

Lemma _save_not_running (w : World) :
  loop_running (env w) = false -> _save w = _save_async w.
Proof.
  intros Hl. unfold _save, try_except_RuntimeError, get_running_loop, bind, get, raise.
  rewrite Hl. reflexivity.
Qed.

Lemma _save_returns (w : World) : _save w = (Return tt, snd (_save w)).
Proof.
  destruct (loop_running (env w)) eqn:Hl.
  - rewrite _save_running by exact Hl. reflexivity.
  - rewrite _save_not_running by exact Hl. rewrite _save_async_run. reflexivity.
Qed.

Lemma _save_bind {B} (k : unit -> M World B) (w : World) :
  bind _save k w = k tt (snd (_save w)).
Proof. apply bind_run, _save_returns. Qed.

Ltac py_unfold :=
  unfold time_time, set_furbies; unfold bind, get, gets, modify, ret, raise; cbn beta iota.

Lemma call_without_save (c : Call) (w : World) :
  saves c w = false -> call c w = (Return tt, w).
Proof.
  destruct c as [a dn n i fw | a | | a n i]; simpl; try discriminate; intros Hm.
  - unfold remove. py_unfold. rewrite Hm. reflexivity.
  - unfold update_name. py_unfold. unfold Dict.mem in Hm.
    destruct (Dict.get a (furbies (config (self w)))); [discriminate | reflexivity].
Qed.

Lemma call_with_save (c : Call) (w : World) :
  saves c w = true ->
  exists w1, same_frame w w1 /\
             (Dict.wf (furbies (config (self w))) -> Dict.wf (furbies (config (self w1)))) /\
             call c w = (Return tt, snd (_save w1)).
Proof.
  destruct c as [a dn n i fw | a | | a n i]; simpl; intros Hm.
  - unfold add_or_update. py_unfold.
    destruct (Dict.get a (furbies (config (self w)))) as [f|]; cbn beta iota;
      rewrite _save_returns; (eexists; split; [|split; [|reflexivity]]);
      [ repeat split | intros Hwf; apply dict_wf_set, Hwf
      | repeat split | intros Hwf; apply dict_wf_set, Hwf ].
  - unfold remove. py_unfold. rewrite Hm. rewrite _save_returns.
    eexists; split; [|split; [|reflexivity]];
      [ repeat split | intros Hwf; apply dict_wf_del, Hwf ].
  - unfold clear. py_unfold.
    eexists; split; [|split; [|apply _save_returns]];
      [ repeat split | intros _; apply NoDup_nil_2 ].
  - unfold update_name. py_unfold. unfold Dict.mem in Hm.
    destruct (Dict.get a (furbies (config (self w)))) as [f|]; [|discriminate].
    cbn beta iota.
    eexists; split; [|split; [|apply _save_returns]];
      [ repeat split | intros Hwf; apply dict_wf_set, Hwf ].
Qed.

(** *** Persistence round trip *)

Lemma after_write_persisted (w : World) : persisted (after_write w).
Proof. unfold persisted, after_write. cbn. apply lookup_insert_eq. Qed.

Lemma persisted_reloads (w : World) :
  Dict.wf (furbies (config (self w))) -> persisted w -> reloads w.
Proof. intros Hwf Hp. unfold reloads. apply init_reloads; assumption. Qed.

Lemma _save_async_writable (w : World) :
  cache_file (self w) ∉ unwritable (env w) ->
  _save_async w = (Return tt, after_write w).
Proof.
  intros Hw. rewrite _save_async_run, bool_decide_eq_false_2 by exact Hw. reflexivity.
Qed.

(** C6. For a config whose dictionary is well formed and a cache file that
    can be written: the asynchronous save and, when no event loop runs, the
    synchronous fallback of [_save] both leave the JSON dump of the whole
    config in the cache file, and constructing a cache from that file gives a
    config equal to the saved one; without an event loop every mutating call
    that saves has written the dump of the config it leaves behind before it
    returns, and has scheduled nothing. *)
Theorem save_load_round_trip (w : World) :
  Dict.wf (furbies (config (self w))) ->
  cache_file (self w) ∉ unwritable (env w) ->
  (let w' := snd (_save_async w) in
   self w' = self w /\ persisted w' /\ reloads w') /\
  (loop_running (env w) = false ->
   (let w' := snd (_save w) in
    self w' = self w /\ persisted w' /\ reloads w') /\
   (forall c : Call, saves c w = true ->
      let w' := snd (call c w) in
      fst (call c w) = Return tt /\
      tasks (env w') = tasks (env w) /\
      _save_task (self w') = _save_task (self w) /\
      persisted w' /\ reloads w')).
Proof.
  intros Hwf Hw.
  assert (Hasync : let w' := snd (_save_async w) in
                   self w' = self w /\ persisted w' /\ reloads w').
  { cbn zeta. rewrite _save_async_writable by exact Hw. cbn [snd].
    split; [reflexivity|]. split; [apply after_write_persisted|].
    apply persisted_reloads; [exact Hwf | apply after_write_persisted]. }
  split; [exact Hasync|]. intros Hl. split.
  - cbn zeta. rewrite _save_not_running by exact Hl. exact Hasync.
  - intros c Hc. cbn zeta.
    destruct (call_with_save c w Hc) as (w1 & Hframe & Hwf1 & ->).
    destruct Hframe as (Hcf & Hsp & Hst & Hfs & Huw & Hlr & Hts).
    cbn [fst snd].
    rewrite _save_not_running by (rewrite Hlr; exact Hl).
    rewrite _save_async_writable by (rewrite Hcf, Huw; exact Hw).
    cbn [snd]. split; [reflexivity|]. split; [exact Hts|]. split; [exact Hst|].
    split; [apply after_write_persisted|].
    apply persisted_reloads; [apply Hwf1, Hwf | apply after_write_persisted].
Qed.

(** *** Cancelling and flushing *)

Lemma flush_run (w : World) :
  flush w =
  (Return tt,
   with_self (set__save_pending false)
     (snd (_save_async (mkWorld (self w) (cancel_unfinished (_save_task (self w)) (env w)))))).
Proof.
  destruct w as [c e].
  unfold flush, cancel_unfinished, cancel, done_. py_unfold.
  unfold with_env, with_self. cbn.
  destruct (_save_task c) as [t|]; cbn.
  - destruct (task_state t e) eqn:Ht; cbn; rewrite ?Ht; rewrite _save_async_run; reflexivity.
  - rewrite _save_async_run. reflexivity.
Qed.

Lemma task_state_in_range (t : nat) (e : Env) :
  task_state t e <> Finished -> (t < length (tasks e))%nat.
Proof.
  unfold task_state. intros Hs.
  destruct (tasks e !! t) as [s|] eqn:Hl.
  - apply lookup_lt_Some in Hl. exact Hl.
  - exfalso. apply Hs. reflexivity.
Qed.

Lemma cancel_unfinished_tasks (t : option nat) (e : Env) :
  length (tasks (cancel_unfinished t e)) = length (tasks e) /\
  (forall t', t = Some t' -> task_state t' e <> Finished ->
              task_state t' (cancel_unfinished t e) = Cancelling) /\
  (forall t', t <> Some t' -> tasks (cancel_unfinished t e) !! t' = tasks e !! t').
Proof.
  destruct t as [t|]; cbn; [|repeat split; intros; congruence].
  split; [|split].
  - destruct (task_state t e); cbn; rewrite ?length_insert; reflexivity.
  - intros t' [= <-] Hs. pose proof (task_state_in_range t e Hs) as Hlt.
    destruct (task_state t e) eqn:Ht; [| |contradiction];
      unfold task_state; cbn; rewrite list_lookup_insert_eq by exact Hlt; reflexivity.
  - intros t' Hne. assert (t <> t') by congruence.
    destruct (task_state t e); cbn; rewrite ?list_lookup_insert_ne by assumption; reflexivity.
Qed.

(** *** Reading *)

Section SortDesc.
Context {A : Type} (key : A -> Z).

Lemma insert_desc_perm (x : A) (l : list A) : insert_desc key x l ≡ₚ x :: l.
Proof.
  induction l as [|y l IH]; simpl; [reflexivity|].
  destruct (key y <=? key x)%Z; [reflexivity|].
  rewrite IH. apply Permutation_swap.
Qed.

Lemma sort_desc_perm (l : list A) : sort_desc key l ≡ₚ l.
Proof.
  induction l as [|x l IH]; simpl; [reflexivity|].
  rewrite insert_desc_perm, IH. reflexivity.
Qed.

Lemma insert_desc_sorted (x : A) (l : list A) :
  StronglySorted (desc key) l -> StronglySorted (desc key) (insert_desc key x l).
Proof.
  induction l as [|y l IH]; simpl; intros Hs.
  - repeat constructor.
  - apply StronglySorted_inv in Hs as [Hl Hy].
    destruct (key y <=? key x)%Z eqn:Hle.
    + apply Z.leb_le in Hle. constructor; [constructor; assumption|].
      constructor; [exact Hle|].
      eapply Forall_impl; [exact Hy|]. unfold desc. intros z Hz. lia.
    + apply Z.leb_gt in Hle. constructor; [apply IH, Hl|].
      rewrite insert_desc_perm. constructor; [unfold desc; lia | exact Hy].
Qed.

Lemma sort_desc_sorted (l : list A) : StronglySorted (desc key) (sort_desc key l).
Proof.
  induction l as [|x l IH]; simpl; [constructor | apply insert_desc_sorted, IH].
Qed.

Lemma sort_desc_nil (l : list A) : sort_desc key l = [] <-> l = [].
Proof.
  split; [|intros ->; reflexivity].
  intros H. apply Permutation_nil_r. rewrite <- H. symmetry. apply sort_desc_perm.
Qed.

End SortDesc.

(** C8. The four read methods return with the world exactly as it was (same
    config, same tasks, same save flag, same files).  [get] is the dictionary
    lookup and [get_addresses] the keys; [get_all] is a rearrangement of all
    the entries in which every entry is at least as recent as all that follow
    it; [get_most_recent] is [None] exactly when the cache has no entry, and
    otherwise an entry whose [last_seen] no other entry exceeds. *)
Theorem reads_do_not_mutate (w : World) (address : string) :
  get_ address w = (Return (Dict.get address (furbies (config (self w)))), w) /\
  get_addresses w = (Return (Dict.keys (furbies (config (self w)))), w) /\
  (exists l, get_all w = (Return l, w) /\
             l ≡ₚ Dict.values (furbies (config (self w))) /\
             StronglySorted (fun f g => (last_seen g <= last_seen f)%Z) l) /\
  (exists r, get_most_recent w = (Return r, w) /\
             (r = None <-> furbies (config (self w)) = []) /\
             (forall f, r = Some f ->
                f ∈ Dict.values (furbies (config (self w))) /\
                forall g, g ∈ Dict.values (furbies (config (self w))) ->
                          (last_seen g <= last_seen f)%Z)).
Proof.
  split; [reflexivity|]. split; [reflexivity|]. split.
  - eexists. split; [reflexivity|]. split; [apply sort_desc_perm | apply sort_desc_sorted].
  - unfold get_most_recent, get_all. py_unfold.
    set (vs := Dict.values (furbies (config (self w)))).
    pose proof (sort_desc_perm last_seen vs) as Hperm.
    pose proof (sort_desc_sorted last_seen vs) as Hsorted.
    pose proof (sort_desc_nil last_seen vs) as Hnil.
    destruct (sort_desc last_seen vs) as [|f l] eqn:Hs.
    + eexists. split; [reflexivity|]. split; [|discriminate].
      split; [intros _ | reflexivity].
      destruct Hnil as [Hnil _]. specialize (Hnil eq_refl).
      subst vs. unfold Dict.values in Hnil. apply map_eq_nil in Hnil. exact Hnil.
    + eexists. split; [reflexivity|]. split.
      * split; [discriminate|]. intros Hempty. exfalso.
        destruct Hnil as [_ Hnil]. subst vs. rewrite Hempty in Hnil.
        specialize (Hnil eq_refl). discriminate.
      * intros f' [= <-]. split.
        -- rewrite <- Hperm. left.
        -- intros g Hg. rewrite <- Hperm in Hg.
           apply StronglySorted_inv in Hsorted as [_ Hall].
           apply elem_of_cons in Hg as [-> | Hg]; [lia|].
           rewrite Forall_forall in Hall. apply Hall. exact Hg.
Qed.

(** *** Debouncing *)













(** *** Flush *)


(** *** Every reachable config is a well-formed dictionary *)

Lemma py_dict_is_wf {V} (members : list (string * V)) : Dict.wf (Json.py_dict members).
Proof.
  unfold Json.py_dict.
  assert (H : forall acc : Dict.dict V, Dict.wf acc ->
                Dict.wf (fold_left (fun d kv => Dict.set (fst kv) (snd kv) d) members acc)).
  { induction members as [|kv members IH]; intros acc Hacc; [exact Hacc|].
    simpl. apply IH, dict_wf_set, Hacc. }
  apply H, NoDup_nil_2.
Qed.

Lemma validate_furbies_keys (d : Dict.dict json) (r : Dict.dict KnownFurby) :
  validate_furbies d = Some r -> Dict.keys r = Dict.keys d.
Proof.
  revert r. induction d as [|[k j] d IH]; intros r; simpl.
  - intros [= <-]. reflexivity.
  - destruct (KnownFurby_validate j) as [f|]; [|discriminate]. simpl.
    destruct (validate_furbies d) as [r'|]; [|discriminate]. simpl.
    intros [= <-]. simpl. f_equal. apply IH. reflexivity.
Qed.

Lemma validate_wf (v : json) (c : KnownFurbiesConfig) :
  KnownFurbiesConfig_validate v = Return c -> Dict.wf (furbies c).
Proof.
  unfold KnownFurbiesConfig_validate.
  destruct v as [| | | | |members]; try discriminate.
  destruct (Dict.get "furbies" (Json.py_dict members)) as [[| | | | |fs]|]; try discriminate.
  destruct (validate_furbies (Json.py_dict fs)) as [d|] eqn:Hd; [|discriminate].
  intros [= <-]. cbn. unfold Dict.wf.
  rewrite (validate_furbies_keys _ _ Hd). apply py_dict_is_wf.
Qed.

Lemma _save_config (w : World) : config (self (snd (_save w))) = config (self w).
Proof.
  destruct (loop_running (env w)) eqn:Hl.
  - rewrite _save_running by exact Hl. reflexivity.
  - rewrite _save_not_running, _save_async_run by exact Hl. cbn.
    destruct (bool_decide _); reflexivity.
Qed.

Lemma step_wf (w w' : World) :
  step w w' -> Dict.wf (furbies (config (self w))) -> Dict.wf (furbies (config (self w'))).
Proof.
  intros Hstep Hwf. destruct Hstep as [c w | w | t w Hl | b w].
  - destruct (saves c w) eqn:Hc.
    + destruct (call_with_save c w Hc) as (w1 & _ & Hwf1 & ->). cbn.
      rewrite _save_config. apply Hwf1, Hwf.
    + rewrite call_without_save by exact Hc. exact Hwf.
  - rewrite flush_run, _save_async_run. cbn. destruct (bool_decide _); exact Hwf.
  - destruct w as [c e]. unfold resume, delayed_save, done_, try_except_Cancelled. py_unfold.
    unfold with_env, with_self. cbn -[_save_async].
    destruct (task_state t e) eqn:Ht; cbn -[_save_async]; rewrite ?Ht; cbn -[_save_async];
      try exact Hwf.
    rewrite _save_async_run. cbn. destruct (bool_decide _); exact Hwf.
  - exact Hwf.
Qed.

Lemma reachable_wf (w : World) : reachable w -> Dict.wf (furbies (config (self w))).
Proof.
  induction 1 as [path e e' c Hts Hinit | w w' _ IH Hstep].
  - unfold __init__, bind in Hinit. rewrite _load_run in Hinit. injection Hinit as <- <-. cbn.
    destruct (fs e !! path) as [[| raw | v]|]; try apply NoDup_nil_2.
    destruct (KnownFurbiesConfig_validate v) as [c|x] eqn:Hv; [|apply NoDup_nil_2].
    exact (validate_wf v c Hv).
  - exact (step_wf w w' Hstep IH).
Qed.

(** *** Concrete runs *)

Example demo_one_tasks :
  tasks (env demo_one) = [Sleeping] /\ _save_task (self demo_one) = Some 0%nat /\
  fs (env demo_one) !! "known_furbies.json" = None.
Proof. repeat split. Qed.

Example demo_debounce_tasks :
  tasks (env (snd (call (demo_add "01") demo_one))) = [Cancelling; Sleeping].
Proof. reflexivity. Qed.

Example demo_resume_writes :
  let w := snd (resume 1 (snd (resume 0 (snd (call (demo_add "01") demo_one))))) in
  tasks (env w) = [Finished; Finished] /\ _save_pending (self w) = false /\ persisted w.
Proof. repeat split. Qed.

Example demo_get_all_newest_first :
  map address (match fst (get_all (snd (call (demo_add "01") demo_one))) with
               | Return l => l
               | Raise _ => []
               end) = ["AA:BB:CC:DD:EE:01"; "AA:BB:CC:DD:EE:00"].
Proof. reflexivity. Qed.




Lemma save_load_round_trip_witness :
  Dict.wf (furbies (config (self demo_no_loop))) /\
  (cache_file (self demo_no_loop) ∉ unwritable (env demo_no_loop)) /\
  reloads (snd (_save demo_no_loop)) /\
  reloads (snd (call (Remove "AA:BB:CC:DD:EE:00") demo_no_loop)).
Proof.
  assert (Hwf : Dict.wf (furbies (config (self demo_no_loop)))).
  { vm_compute. apply NoDup_singleton. }
  assert (Hw : cache_file (self demo_no_loop) ∉ unwritable (env demo_no_loop)).
  { exact (not_elem_of_empty (C := gset string) _). }
  split; [exact Hwf|]. split; [exact Hw|].
  destruct (save_load_round_trip demo_no_loop Hwf Hw) as (_ & Hsync).
  destruct (Hsync eq_refl) as ((_ & _ & Hreload) & Hcalls).
  split; [exact Hreload|].
  apply (Hcalls (Remove "AA:BB:CC:DD:EE:00") eq_refl).
Defined.

End CacheTheory.

(** ** Theory of [HomeAssistant] *)
Module BridgeTheory.
Import Json HomeAssistant.

(** *** The state publishers as a one-way mirror *)

Lemma only_published_refl (w : World) : only_published w w.
Proof. repeat split. exists []. symmetry. apply app_nil_r. Qed.

Lemma only_published_trans (w1 w2 w3 : World) :
  only_published w1 w2 -> only_published w2 w3 -> only_published w1 w3.
Proof.
  intros (Hs & Hsub & Ht & m1 & Ho) (Hs' & Hsub' & Ht' & m2 & Ho').
  repeat split; try congruence.
  exists (m1 ++ m2). rewrite Ho', Ho. symmetry. apply app_assoc.
Qed.

Lemma client_publish_frame (t : string) (p : Payload) (r : bool) (w : World) :
  only_published w (snd (client_publish t p r w)).
Proof.
  unfold client_publish, bind, get, modify, raise.
  destruct (link_budget w) as [[|n]|]; cbn.
  - apply only_published_refl.
  - repeat split. eexists. reflexivity.
  - repeat split. eexists. reflexivity.
Qed.

Lemma bind_frame {A B} (c : M World A) (k : A -> M World B) (w : World) :
  only_published w (snd (c w)) ->
  (forall a w1, only_published w1 (snd (k a w1))) ->
  only_published w (snd (bind c k w)).
Proof.
  intros Hc Hk. unfold bind. destruct (c w) as [[a|e] w1]; cbn in *.
  - eapply only_published_trans; [exact Hc | apply Hk].
  - exact Hc.
Qed.

Lemma client_publish_healthy (t : string) (p : Payload) (r : bool) (w : World) :
  link_budget w = None ->
  client_publish t p r w =
  (Return tt, mkWorld (self w) (outbox w ++ [mkMessage t p r]) (subscriptions w)
                      (created_tasks w) None).
Proof. intros Hl. unfold client_publish, bind, get, modify. rewrite Hl. reflexivity. Qed.

(** C7. Whatever the state of the object and of the link, a call of
    [publish_antenna_state], [publish_connection_state] or
    [publish_mood_state] leaves every attribute of the [HomeAssistantMQTT]
    object as it was, subscribes to nothing and creates no task: it can only
    append messages to what the broker received.  With a connected client and
    a link that holds, the appended messages are the state topics of the
    source, in its order, not retained. *)
Theorem state_publishers_only_emit (w : World) (red green blue : Z) (on connected : bool)
    (mood_type : string) (value : Z) :
  only_published w (snd (publish_antenna_state red green blue on w)) /\
  only_published w (snd (publish_connection_state connected w)) /\
  only_published w (snd (publish_mood_state mood_type value w)) /\
  (forall c, client (self w) = Some c -> link_budget w = None ->
     (fst (publish_antenna_state red green blue on w) = Return tt /\
      outbox (snd (publish_antenna_state red green blue on w)) =
      outbox w ++
        [ mkMessage (base_topic (self w) ++ "/antenna/state")%string
                    (Text (if on then "ON" else "OFF")) false;
          mkMessage (base_topic (self w) ++ "/antenna/rgb/state")%string
                    (Text (str_int red ++ "," ++ str_int green ++ "," ++ str_int blue)%string) false ]) /\
     (fst (publish_connection_state connected w) = Return tt /\
      outbox (snd (publish_connection_state connected w)) =
      outbox w ++
        [ mkMessage (base_topic (self w) ++ "/connection/state")%string
                    (Text (if connected then "ON" else "OFF")) false ]) /\
     (fst (publish_mood_state mood_type value w) = Return tt /\
      outbox (snd (publish_mood_state mood_type value w)) =
      outbox w ++
        [ mkMessage (base_topic (self w) ++ "/mood/" ++ mood_type ++ "/state")%string
                    (Text (str_int value)) false ])).
Proof.
  split; [|split; [|split]].
  - unfold publish_antenna_state. apply bind_frame; [apply only_published_refl|].
    intros w0 w1. destruct (client (self w0)); [|apply only_published_refl].
    apply bind_frame; [apply client_publish_frame|].
    intros _ w2. apply client_publish_frame.
  - unfold publish_connection_state. apply bind_frame; [apply only_published_refl|].
    intros w0 w1. destruct (client (self w0)); [|apply only_published_refl].
    apply client_publish_frame.
  - unfold publish_mood_state. apply bind_frame; [apply only_published_refl|].
    intros w0 w1. destruct (client (self w0)); [|apply only_published_refl].
    apply client_publish_frame.
  - intros c Hc Hl. split; [|split].
    + unfold publish_antenna_state, bind, get. rewrite Hc.
      rewrite client_publish_healthy by exact Hl.
      rewrite client_publish_healthy by reflexivity. cbn.
      rewrite <- app_assoc. split; reflexivity.
    + unfold publish_connection_state, bind, get. rewrite Hc.
      rewrite client_publish_healthy by exact Hl. split; reflexivity.
    + unfold publish_mood_state, bind, get. rewrite Hc.
      rewrite client_publish_healthy by exact Hl. split; reflexivity.
Qed.

(** The call of [test_publish_antenna_state], on a link that holds. *)
Example antenna_state_255_128_0 :
  let mqtt := __init__ "localhost" 1883 None None "test_furby" "Furby Connect" in
  let connected := mkHA (broker mqtt) (port mqtt) None None (device_id mqtt) (device_name mqtt)
                        (Some (mkClient "localhost" 1883)) true None
                        (discovery_prefix mqtt) (base_topic mqtt) None in
  let w := mkWorld connected [] [] 0 None in
  publish_antenna_state 255 128 0 true w =
  (Return tt,
   mkWorld connected
     [ mkMessage "pyfluff/test_furby/antenna/state" (Text "ON") false;
       mkMessage "pyfluff/test_furby/antenna/rgb/state" (Text "255,128,0") false ]
     [] 0 None).
Proof. reflexivity. Qed.

(** *** Not connected *)

(** C9. With no client ([client is None]), [publish_discovery] and
    [subscribe_to_commands] raise [RuntimeError], while the three state
    publishers return normally; in all five cases nothing is published,
    nothing is subscribed and the object is unchanged. *)
Theorem not_connected_asymmetry (w : World) (mac_address : option string) (callback : nat)
    (red green blue : Z) (on connected : bool) (mood_type : string) (value : Z) :
  client (self w) = None ->
  publish_discovery mac_address w = (Raise (RuntimeError "Not connected to MQTT broker"), w) /\
  subscribe_to_commands callback w = (Raise (RuntimeError "Not connected to MQTT broker"), w) /\
  publish_antenna_state red green blue on w = (Return tt, w) /\
  publish_connection_state connected w = (Return tt, w) /\
  publish_mood_state mood_type value w = (Return tt, w).
Proof.
  intros Hc.
  unfold publish_discovery, subscribe_to_commands, publish_antenna_state,
    publish_connection_state, publish_mood_state, bind, get.
  rewrite Hc. repeat split.
Qed.

Lemma not_connected_asymmetry_witness :
  let w := mkWorld (__init__ "localhost" 1883 None None "furby_connect" "Furby Connect")
                   [] [] 0 None in
  client (self w) = None /\
  raised (fst (publish_discovery (Some "AA:BB:CC:DD:EE:FF") w)) /\
  publish_mood_state "excitedness" 75 w = (Return tt, w).
Proof.
  cbv zeta. split; [reflexivity|].
  pose proof (not_connected_asymmetry
                (mkWorld (__init__ "localhost" 1883 None None "furby_connect" "Furby Connect")
                         [] [] 0 None)
                (Some "AA:BB:CC:DD:EE:FF") 0%nat 0 0 0 true true "excitedness" 75 eq_refl)
    as (Hd & _ & _ & _ & Hm).
  split; [rewrite Hd; exact I | exact Hm].
Defined.

End BridgeTheory.

(** ** Theory of [DLC] *)
Module TransferTheory.
Import DLC.

#[local] Open Scope nat_scope.

(** *** The registry invariant *)

Lemma demote_active_lookup (reg : SlotRegistry) (i : nat) :
  demote_active reg !! i =
  (fun s => match s with
            | Active => Uploaded
            | _ => s
            end) <$> reg !! i.
Proof. unfold demote_active. apply list_lookup_fmap. Qed.

Lemma demote_active_none (reg : SlotRegistry) (i : nat) :
  demote_active reg !! i <> Some Active.
Proof.
  rewrite demote_active_lookup. destruct (reg !! i) as [[]|]; cbn; discriminate.
Qed.

Lemma none_active_at_most_one (reg : SlotRegistry) :
  (forall i, reg !! i <> Some Active) -> at_most_one_active reg.
Proof. intros Hnone i j Hi _. destruct (Hnone i Hi). Qed.

Lemma insert_keeps_at_most_one (reg : SlotRegistry) (i : nat) (st : SlotState) :
  st <> Active -> at_most_one_active reg -> at_most_one_active (<[i := st]> reg).
Proof.
  intros Hst Hreg a b Ha Hb.
  apply list_lookup_insert_Some in Ha as [(-> & Hx & _) | (_ & Ha)]; [congruence|].
  apply list_lookup_insert_Some in Hb as [(-> & Hx & _) | (_ & Hb)]; [congruence|].
  exact (Hreg a b Ha Hb).
Qed.

Lemma promote_after_demote (reg : SlotRegistry) (slot : nat) :
  at_most_one_active (<[slot := Active]> (demote_active reg)).
Proof.
  intros a b Ha Hb.
  apply list_lookup_insert_Some in Ha as [(<- & _ & _) | (_ & Ha)];
    [|destruct (demote_active_none reg a Ha)].
  apply list_lookup_insert_Some in Hb as [(<- & _ & _) | (_ & Hb)];
    [reflexivity | destruct (demote_active_none reg b Hb)].
Qed.

Lemma observable_states_inv (op : Operation) (reg : SlotRegistry) :
  at_most_one_active reg -> Forall at_most_one_active (observable_states op reg).
Proof.
  intros Hreg.
  assert (Hdem : at_most_one_active (demote_active reg))
    by (apply none_active_at_most_one, demote_active_none).
  destruct op as [slot | slot | | slot]; cbn; repeat constructor; try assumption.
  - apply promote_after_demote.
  - apply insert_keeps_at_most_one; [discriminate | exact Hreg].
Qed.

Lemma committed_inv (op : Operation) (reg : SlotRegistry) :
  at_most_one_active reg -> at_most_one_active (committed op reg).
Proof.
  intros Hreg. pose proof (observable_states_inv op reg Hreg) as Hall.
  rewrite Forall_forall in Hall. apply Hall. unfold committed.
  destruct op; cbn; set_solver.
Qed.

Lemma lifecycle_registry (op : Operation) (reply : Reply) (reg : SlotRegistry) :
  snd (fst (lifecycle op reply reg)) = reg \/
  snd (fst (lifecycle op reply reg)) = committed op reg.
Proof.
  unfold lifecycle. destruct (validate op reg); [left; reflexivity|].
  destruct reply; [right | left]; reflexivity.
Qed.

Create HintDb registry.
#[local] Hint Resolve insert_keeps_at_most_one promote_after_demote committed_inv : registry.
#[local] Hint Extern 1 (_ <> Active) => discriminate : registry.

Lemma registry_step_inv (sys sys' : System) :
  step sys sys' -> at_most_one_active (registry sys) -> at_most_one_active (registry sys').
Proof.
  intros Hstep Hinv. destruct Hstep as [dev slot size sys | sys | sys | op reply sys].
  - unfold request. destruct (registry sys !! slot); [|exact Hinv].
    destruct (session sys); [exact Hinv|].
    destruct (max_payload dev <? size); cbn; auto with registry.
  - unfold commit. destruct (session sys); cbn; auto with registry.
  - unfold abort. destruct (session sys) as [s|]; [|exact Hinv]. cbn.
    destruct (prior s); auto with registry.
  - cbn. destruct (lifecycle_registry op reply (registry sys)) as [-> | ->];
      auto with registry.
Qed.

Lemma registry_reachable_inv (sys : System) : reachable sys -> at_most_one_active (registry sys).
Proof.
  induction 1 as [slots | status Hstatus | sys sys' _ IH Hstep].
  - apply none_active_at_most_one. intros i Hi. cbn in Hi.
    apply lookup_replicate in Hi as [Hi _]. discriminate.
  - exact Hstatus.
  - exact (registry_step_inv sys sys' Hstep IH).
Qed.

(** C2. In every reachable state of the registry at most one slot is
    [Active].  For a slot that is [Uploaded], an acknowledged [activate]
    succeeds, leaves that slot [Active], every slot that was [Active]
    [Uploaded] and every other slot as it was, and each registry state the
    operation passes through has at most one [Active] slot. *)
Theorem activate_keeps_one_active (sys : System) :
  reachable sys ->
  at_most_one_active (registry sys) /\
  (forall slot, registry sys !! slot = Some Uploaded ->
     exists reg',
       activate slot Acked (registry sys) =
         (Succeeded, reg', [SendLifecycle (OpActivate slot); AwaitLifecycleAck]) /\
       reg' !! slot = Some Active /\
       (forall j, j <> slot -> registry sys !! j = Some Active -> reg' !! j = Some Uploaded) /\
       (forall j st, j <> slot -> st <> Active -> registry sys !! j = Some st ->
                     reg' !! j = Some st) /\
       Forall at_most_one_active (observable_states (OpActivate slot) (registry sys))).
Proof.
  intros Hreach. pose proof (registry_reachable_inv sys Hreach) as Hinv.
  split; [exact Hinv|]. intros slot Hslot.
  unfold activate, lifecycle, validate. rewrite Hslot.
  exists (<[slot := Active]> (demote_active (registry sys))). split; [reflexivity|].
  assert (Hlt : slot < length (demote_active (registry sys))).
  { unfold demote_active. rewrite length_fmap. eapply lookup_lt_Some, Hslot. }
  split; [apply list_lookup_insert_eq, Hlt|].
  split; [|split].
  - intros j Hj Hact. rewrite list_lookup_insert_ne by congruence.
    rewrite demote_active_lookup, Hact. reflexivity.
  - intros j st Hj Hst Hlook. rewrite list_lookup_insert_ne by congruence.
    rewrite demote_active_lookup, Hlook. destruct st; try reflexivity. contradiction.
  - apply (observable_states_inv (OpActivate slot)), Hinv.
Qed.


(** *** Chunking *)

Lemma ceil_div_0 (d : nat) : 0 < d -> ceil_div 0 d = 0.
Proof. intros Hd. unfold ceil_div. apply Nat.div_small. lia. Qed.

Lemma ceil_div_step (n d : nat) : 0 < d -> 0 < n -> ceil_div n d = S (ceil_div (n - d) d).
Proof.
  intros Hd Hn. unfold ceil_div.
  destruct (le_lt_dec n d) as [Hle|Hgt].
  - replace (n - d) with 0 by lia.
    rewrite (Nat.div_small (0 + d - 1) d) by lia.
    symmetry. apply (Nat.div_unique _ _ 1 (n - 1)); lia.
  - replace (n + d - 1) with ((n - d + d - 1) + 1 * d) by lia.
    rewrite Nat.div_add by lia. lia.
Qed.

Lemma pieces_concat (fuel chunk_size : nat) (payload : list Byte.byte) :
  0 < chunk_size -> length payload <= fuel ->
  concat (pieces fuel chunk_size payload) = payload.
Proof.
  intros Hcs. revert payload.
  induction fuel as [|fuel IH]; intros payload Hlen.
  - destruct payload; [reflexivity | simpl in Hlen; lia].
  - destruct payload as [|b payload]; [reflexivity|].
    cbn [pieces concat]. rewrite IH.
    + apply take_drop.
    + rewrite length_drop. simpl in *. lia.
Qed.

Lemma pieces_length (fuel chunk_size : nat) (payload : list Byte.byte) :
  0 < chunk_size -> length payload <= fuel ->
  length (pieces fuel chunk_size payload) = ceil_div (length payload) chunk_size.
Proof.
  intros Hcs. revert payload.
  induction fuel as [|fuel IH]; intros payload Hlen.
  - destruct payload; [|simpl in Hlen; lia]. simpl. symmetry. apply ceil_div_0, Hcs.
  - destruct payload as [|b payload]; [simpl; symmetry; apply ceil_div_0, Hcs|].
    cbn [pieces length]. rewrite IH.
    + rewrite length_drop. symmetry. apply (ceil_div_step (S (length payload))); lia.
    + rewrite length_drop. simpl in *. lia.
Qed.

Lemma pieces_sizes (fuel chunk_size : nat) (payload : list Byte.byte) :
  0 < chunk_size -> length payload <= fuel ->
  Forall (fun c => 0 < length c <= chunk_size) (pieces fuel chunk_size payload) /\
  (forall i c, pieces fuel chunk_size payload !! i = Some c ->
               S i < length (pieces fuel chunk_size payload) -> length c = chunk_size).
Proof.
  intros Hcs. revert payload.
  induction fuel as [|fuel IH]; intros payload Hlen.
  - split; [constructor | intros i c Hi; destruct i; discriminate].
  - destruct payload as [|b payload];
      [split; [constructor | intros i c Hi; destruct i; discriminate]|].
    cbn [pieces].
    assert (Hrest : length (drop chunk_size (b :: payload)) <= fuel)
      by (rewrite length_drop; simpl in *; lia).
    destruct (IH _ Hrest) as [Hall Hfull]. split.
    + constructor; [|exact Hall]. rewrite length_take. simpl. lia.
    + intros [|i] c Hi Hlt.
      * injection Hi as <-. rewrite length_take.
        cbn [length] in Hlt.
        rewrite pieces_length in Hlt by assumption.
        rewrite length_drop in Hlt.
        destruct (le_lt_dec (length (b :: payload)) chunk_size) as [Hle|Hgt]; [|lia].
        replace (length (b :: payload) - chunk_size) with 0 in Hlt by lia.
        rewrite ceil_div_0 in Hlt by exact Hcs. lia.
      * cbn in Hi. apply (Hfull i c Hi). cbn [length] in Hlt. lia.
Qed.

Lemma send_from_cooperative (dev : Device) (ack_mode : bool) (index offset : nat)
    (chunks : list (list Byte.byte)) :
  write_fails_at dev = None -> ack_missing_at dev = None ->
  fst (send_from dev ack_mode index offset chunks) = (Succeeded, chunk_events ack_mode chunks).
Proof.
  intros Hw Ha. revert index offset.
  induction chunks as [|c chunks IH]; intros index offset; [reflexivity|].
  cbn [send_from]. rewrite Hw, Ha.
  rewrite !bool_decide_eq_false_2 by discriminate. rewrite andb_false_r.
  specialize (IH (S index) (offset + length c)).
  destruct (send_from dev ack_mode (S index) (offset + length c) chunks) as [[o ev] pr].
  cbn in IH. injection IH as -> ->. reflexivity.
Qed.

(** C1. With a positive chunk size, a device that answers and a request
    that passes validation, an upload splits the payload into exactly
    [ceil(size / chunk_size)] chunks that concatenate to the payload; no chunk
    is empty or longer than [chunk_size], and every chunk but the last has
    exactly that length.  A zero-length payload is not an error: it is sent as
    a single empty write.  In step-ack mode each chunk write is followed by one
    wait for its acknowledgment, before the next write and before the
    completion wait; in streaming mode the same chunks are written with no
    wait in between.  Either way one completion wait follows the last write
    and the slot ends [Uploaded]. *)
Theorem upload_chunks (dev : Device) (sys : System) (slot chunk_size : nat)
    (payload : list Byte.byte) :
  0 < chunk_size ->
  ready_arrives dev = true ->
  write_fails_at dev = None ->
  ack_missing_at dev = None ->
  completion_arrives dev = true ->
  slot < length (registry sys) ->
  session sys = None ->
  length payload <= max_payload dev ->
  let chunks := split_payload chunk_size payload in
  length chunks = ceil_div (length payload) chunk_size /\
  concat chunks = payload /\
  Forall (fun c => 0 < length c <= chunk_size) chunks /\
  (forall i c, chunks !! i = Some c -> S i < length chunks -> length c = chunk_size) /\
  (forall ack_mode,
     upload dev slot payload chunk_size ack_mode sys =
     (Succeeded,
      mkSystem (<[slot := Uploaded]> (registry sys)) None,
      [SendStart slot (length payload) ack_mode; AwaitReady] ++
      match payload with
      | [] => [Write []]
      | _ => flat_map (fun c => Write c :: (if ack_mode then [AwaitChunkAck] else [])) chunks
      end ++
      [AwaitCompletion])).
Proof.
  intros Hcs Hready Hw Ha Hdone Hslot Hsess Hsize chunks.
  destruct (pieces_sizes (length payload) chunk_size payload Hcs (le_n _)) as [Hall Hfull].
  split; [apply pieces_length; [exact Hcs | apply le_n]|].
  split; [apply pieces_concat; [exact Hcs | apply le_n]|].
  split; [exact Hall|]. split; [exact Hfull|].
  intros ack_mode. unfold upload, request.
  destruct (registry sys !! slot) as [st|] eqn:Hst;
    [|apply lookup_ge_None in Hst; lia].
  rewrite Hsess.
  replace (max_payload dev <? length payload) with false
    by (symmetry; apply Nat.ltb_ge, Hsize).
  rewrite Hready. cbn [negb].
  assert (Hsend : fst (send dev payload chunk_size ack_mode) =
                  (Succeeded,
                   match payload with
                   | [] => [Write []]
                   | _ => chunk_events ack_mode chunks
                   end)).
  { unfold send. destruct payload as [|b payload].
    - rewrite Hw. reflexivity.
    - apply send_from_cooperative; assumption. }
  destruct (send dev payload chunk_size ack_mode) as [[o ev] pr].
  cbn in Hsend. injection Hsend as -> ->.
  rewrite Hdone. unfold commit. cbn.
  rewrite list_insert_insert_eq. destruct payload; reflexivity.
Qed.

(** *** The scenarios of section 8 *)

Example scenario_upload :
  let '(outcome, sys, events) :=
    upload demo_device 2 demo_payload 200 false (mkSystem demo_status None) in
  outcome = Succeeded /\
  registry sys = [Empty; Active; Uploaded; Empty] /\
  length demo_payload = 1600 /\
  map is_write events =
    [false; false; true; true; true; true; true; true; true; true; false] /\
  List.last events AwaitReady = AwaitCompletion.
Proof. vm_compute. repeat split. Qed.

Example scenario_activate :
  fst (activate 2 Acked (registry demo_uploaded)) =
  (Succeeded, [Empty; Uploaded; Active; Empty]).
Proof. vm_compute. reflexivity. Qed.

Example scenario_completion_timeout :
  fst (upload (mkDevice 4096 true None None false) 2 demo_payload 200 false
         (mkSystem demo_status None)) =
  (Failed CompletionTimeout, mkSystem demo_status None).
Proof. vm_compute. reflexivity. Qed.

Example scenario_delete_active :
  delete 1 Acked demo_status = (Failed SlotInUse, demo_status, []).
Proof. reflexivity. Qed.

(** The zero-length payload: no chunk, one empty write, no error, in both
    modes. *)
Example scenario_empty_payload :
  split_payload 200 [] = [] /\
  ceil_div 0 200 = 0 /\
  upload demo_device 2 [] 200 true (mkSystem demo_status None) =
  (Succeeded, mkSystem [Empty; Active; Uploaded; Empty] None,
   [SendStart 2 0 true; AwaitReady; Write []; AwaitCompletion]).
Proof. vm_compute. repeat split. Qed.

(** Step-ack mode on five bytes in chunks of two. *)
Example scenario_step_ack :
  let payload := list_byte_of_string "ABCDE" in
  snd (upload demo_device 0 payload 2 true (mkSystem demo_status None)) =
  [ SendStart 0 5 true; AwaitReady;
    Write (list_byte_of_string "AB"); AwaitChunkAck;
    Write (list_byte_of_string "CD"); AwaitChunkAck;
    Write (list_byte_of_string "E"); AwaitChunkAck;
    AwaitCompletion ].
Proof. vm_compute. reflexivity. Qed.

Lemma upload_chunks_witness :
  let '(outcome, sys, events) :=
    upload demo_device 2 demo_payload 200 false (mkSystem demo_status None) in
  length (split_payload 200 demo_payload) = 8 /\
  outcome = Succeeded /\
  registry sys !! 2 = Some Uploaded /\
  events = [SendStart 2 1600 false; AwaitReady] ++
           map Write (split_payload 200 demo_payload) ++ [AwaitCompletion].
Proof.
  pose proof (upload_chunks demo_device (mkSystem demo_status None) 2 200 demo_payload) as H.
  cbv zeta in H.
  destruct H as (Hlen & _ & _ & _ & Hup).
  - lia.
  - reflexivity.
  - reflexivity.
  - reflexivity.
  - reflexivity.
  - cbn. lia.
  - reflexivity.
  - apply Nat.leb_le. vm_compute. reflexivity.
  - rewrite (Hup false). split; [rewrite Hlen; vm_compute; reflexivity|].
    split; [reflexivity|]. split; [reflexivity|].
    vm_compute. reflexivity.
Defined.

Lemma demo_uploaded_reachable : reachable demo_uploaded.
Proof.
  apply (reach_step (snd (request demo_device 2 1600 (mkSystem demo_status None)))).
  - apply (reach_step (mkSystem demo_status None)).
    + apply reach_status. intros i j Hi Hj.
      destruct i as [|[|[|[|i]]]]; try discriminate Hi.
      destruct j as [|[|[|[|j]]]]; try discriminate Hj.
      reflexivity.
    + apply step_request.
  - apply step_commit.
Defined.

Lemma activate_keeps_one_active_witness :
  reachable demo_uploaded /\
  registry demo_uploaded !! 2 = Some Uploaded /\
  exists reg', fst (activate 2 Acked (registry demo_uploaded)) = (Succeeded, reg') /\
               reg' !! 2 = Some Active /\ reg' !! 1 = Some Uploaded.
Proof.
  split; [exact demo_uploaded_reachable|]. split; [reflexivity|].
  destruct (activate_keeps_one_active demo_uploaded demo_uploaded_reachable) as [_ Hact].
  destruct (Hact 2 eq_refl) as (reg' & Hrun & Hslot & Hdemoted & _).
  exists reg'. rewrite Hrun. split; [reflexivity|]. split; [exact Hslot|].
  apply Hdemoted; [lia | reflexivity].
Defined.


End TransferTheory.

(** ** More on [FurbyCache]: what the mutating methods do to the entries *)
Module CacheEntries.
Import Json Models FurbyCache CacheTheory.

(** *** Lookup after update *)
Section DictLookup.
Context {V : Type}.
Implicit Types (d : Dict.dict V) (k : string) (v : V).

Lemma dict_get_set_eq k v d : Dict.get k (Dict.set k v d) = Some v.
Proof.
  induction d as [|[k' v'] d IH]; simpl.
  - rewrite String.eqb_refl. reflexivity.
  - destruct (String.eqb_spec k k') as [->|Hne]; simpl.
    + rewrite String.eqb_refl. reflexivity.
    + destruct (String.eqb_spec k k'); [contradiction | exact IH].
Qed.

Lemma dict_get_set_ne k k' v d : k' <> k -> Dict.get k' (Dict.set k v d) = Dict.get k' d.
Proof.
  intros Hne. induction d as [|[k0 v0] d IH]; simpl.
  - destruct (String.eqb_spec k' k); [contradiction | reflexivity].
  - destruct (String.eqb_spec k k0) as [->|Hk]; simpl.
    + destruct (String.eqb_spec k' k0); [contradiction | reflexivity].
    + destruct (String.eqb_spec k' k0); [reflexivity | exact IH].
Qed.

Lemma dict_get_del_ne k k' d : k' <> k -> Dict.get k' (Dict.del k d) = Dict.get k' d.
Proof.
  intros Hne. induction d as [|[k0 v0] d IH]; simpl; [reflexivity|].
  destruct (String.eqb_spec k k0) as [->|Hk]; simpl.
  - destruct (String.eqb_spec k' k0); [contradiction | reflexivity].
  - destruct (String.eqb_spec k' k0); [reflexivity | exact IH].
Qed.

Lemma dict_get_del_eq k d : Dict.wf d -> Dict.get k (Dict.del k d) = None.
Proof.
  unfold Dict.wf. induction d as [|[k0 v0] d IH]; simpl; intros Hwf; [reflexivity|].
  apply NoDup_cons in Hwf as [Hnotin Hwf].
  destruct (String.eqb_spec k k0) as [->|Hk]; simpl.
  - apply dict_get_None_keys, Hnotin.
  - destruct (String.eqb_spec k k0); [contradiction | apply IH, Hwf].
Qed.

Lemma dict_keys_set k v d :
  Dict.keys (Dict.set k v d) = if Dict.mem k d then Dict.keys d else Dict.keys d ++ [k].
Proof.
  destruct (Dict.mem k d) eqn:Hm.
  - apply dict_keys_set_known, dict_mem_keys, Hm.
  - rewrite dict_set_fresh.
    + unfold Dict.keys. rewrite map_app. reflexivity.
    + intros Hin. apply dict_mem_keys in Hin. congruence.
Qed.

Lemma dict_keys_del k d :
  Dict.wf d -> Dict.keys (Dict.del k d) = List.filter (fun k' => negb (String.eqb k k')) (Dict.keys d).
Proof.
  unfold Dict.wf. induction d as [|[k0 v0] d IH]; simpl; intros Hwf; [reflexivity|].
  apply NoDup_cons in Hwf as [Hnotin Hwf].
  destruct (String.eqb_spec k k0) as [->|Hk]; simpl.
  - clear IH. induction d as [|[k1 v1] d IH]; simpl; [reflexivity|].
    apply not_elem_of_cons in Hnotin as [Hne Hnotin]. apply NoDup_cons in Hwf as [_ Hwf].
    destruct (String.eqb_spec k0 k1); [contradiction|]. simpl. f_equal. apply IH; assumption.
  - f_equal. apply IH, Hwf.
Qed.

Lemma dict_values_set k v d (x : V) :
  x ∈ Dict.values (Dict.set k v d) -> x = v \/ x ∈ Dict.values d.
Proof.
  induction d as [|[k0 v0] d IH]; simpl.
  - intros Hx. apply list_elem_of_singleton in Hx. left. exact Hx.
  - destruct (String.eqb_spec k k0) as [->|Hk]; simpl; intros Hx;
      apply elem_of_cons in Hx as [-> | Hx].
    + left. reflexivity.
    + right. right. exact Hx.
    + right. left.
    + destruct (IH Hx) as [-> | Hin]; [left; reflexivity | right; right; exact Hin].
Qed.

Lemma dict_values_set_new k v d : v ∈ Dict.values (Dict.set k v d).
Proof.
  induction d as [|[k0 v0] d IH]; simpl; [left|].
  destruct (String.eqb_spec k k0); simpl; [left | right; exact IH].
Qed.

Lemma dict_get_elem k v d : Dict.get k d = Some v -> (k, v) ∈ d.
Proof.
  induction d as [|[k0 v0] d IH]; simpl; [discriminate|].
  destruct (String.eqb_spec k k0) as [->|Hk].
  - intros [= ->]. left.
  - intros Hg. right. apply IH, Hg.
Qed.

Lemma dict_Forall_set (P : string * V -> Prop) k v d :
  P (k, v) -> Forall P d -> Forall P (Dict.set k v d).
Proof.
  intros Hkv Hall. induction d as [|[k0 v0] d IH]; simpl.
  - constructor; [exact Hkv | constructor].
  - apply Forall_cons in Hall as [H0 Hall].
    destruct (String.eqb_spec k k0) as [->|Hk]; constructor; auto.
Qed.

Lemma dict_Forall_del (P : string * V -> Prop) k d : Forall P d -> Forall P (Dict.del k d).
Proof.
  intros Hall. induction d as [|[k0 v0] d IH]; simpl; [constructor|].
  apply Forall_cons in Hall as [H0 Hall].
  destruct (String.eqb_spec k k0); [exact Hall | constructor; auto].
Qed.

End DictLookup.

(** *** The mutating methods, run *)

Lemma add_or_update_run (a : string) (dn n : option string) (i : option Z)
    (fw : option string) (w : World) :
  let d := furbies (config (self w)) in
  let old := Dict.get a d in
  let reads := match old with Some _ => 0%nat | None => 1%nat end in
  let now := clock (env w) (ticks (env w) + reads)%nat in
  let furby :=
    set_last_seen now
      (assign_if_given fw set_firmware_revision
         (assign_if_given i set_name_id
            (assign_if_given n set_name
               (assign_if_given dn set_device_name
                  (default (mkKnownFurby a (clock (env w) (ticks (env w))) None None None None)
                           old))))) in
  exists w', add_or_update a dn n i fw w = (Return furby, w') /\
             furbies (config (self w')) = Dict.set a furby d.
Proof.
  cbv zeta. unfold add_or_update. py_unfold.
  destruct (Dict.get a (furbies (config (self w)))) as [f|]; cbn beta iota;
    rewrite ?Nat.add_0_r, ?Nat.add_1_r; rewrite _save_returns;
    eexists; (split; [reflexivity | rewrite _save_config; reflexivity]).
Qed.

Lemma dict_del_absent {V} (k : string) (d : Dict.dict V) :
  Dict.mem k d = false -> Dict.del k d = d.
Proof.
  unfold Dict.mem. induction d as [|[k0 v0] d IH]; simpl; [reflexivity|].
  destruct (String.eqb_spec k k0); [discriminate|]. intros Hm. f_equal. apply IH, Hm.
Qed.

Lemma remove_run (a : string) (w : World) :
  exists w', remove a w = (Return (Dict.mem a (furbies (config (self w)))), w') /\
             furbies (config (self w')) = Dict.del a (furbies (config (self w))) /\
             (Dict.mem a (furbies (config (self w))) = false -> w' = w).
Proof.
  unfold remove. py_unfold.
  destruct (Dict.mem a (furbies (config (self w)))) eqn:Hm.
  - rewrite _save_returns. eexists. split; [reflexivity|].
    split; [rewrite _save_config; reflexivity | discriminate].
  - exists w. split; [reflexivity|]. split; [|reflexivity].
    symmetry. apply dict_del_absent, Hm.
Qed.

Lemma clear_run (w : World) :
  exists w', clear w = (Return tt, w') /\ furbies (config (self w')) = [].
Proof.
  unfold clear. py_unfold. rewrite _save_returns. eexists. split; [reflexivity|].
  rewrite _save_config. reflexivity.
Qed.

Lemma update_name_run (a nm : string) (i : Z) (w : World) (f : KnownFurby) :
  Dict.get a (furbies (config (self w))) = Some f ->
  exists w', update_name a nm i w = (Return tt, w') /\
             furbies (config (self w')) =
             Dict.set a (mkKnownFurby (address f) (clock (env w) (ticks (env w))) (Some nm)
                                      (Some i) (device_name f) (firmware_revision f))
                      (furbies (config (self w))).
Proof.
  intros Hf. unfold update_name. py_unfold. rewrite Hf. cbn beta iota.
  rewrite _save_returns. eexists. split; [reflexivity|].
  rewrite _save_config. reflexivity.
Qed.

(** *** [add_or_update] *)

(** After [add_or_update] the cache holds, under the address, exactly the
    entry the call returned.  A field that was passed has the passed value; a
    field that was not passed keeps the value of the entry that was there, or
    is [None] for a new address; [last_seen] is the clock reading of the call
    in every case. *)
Theorem add_or_update_entry (a : string) (dn n : option string) (i : option Z)
    (fw : option string) (w : World) :
  let old := Dict.get a (furbies (config (self w))) in
  exists furby w',
    add_or_update a dn n i fw w = (Return furby, w') /\
    get_ a w' = (Return (Some furby), w') /\
    address furby = from_option address a old /\
    device_name furby = match dn with Some _ => dn | None => old ≫= device_name end /\
    name furby = match n with Some _ => n | None => old ≫= name end /\
    name_id furby = match i with Some _ => i | None => old ≫= name_id end /\
    firmware_revision furby = match fw with Some _ => fw | None => old ≫= firmware_revision end /\
    last_seen furby =
      clock (env w) (ticks (env w) + match old with Some _ => 0 | None => 1 end)%nat.
Proof.
  cbv zeta. destruct (add_or_update_run a dn n i fw w) as (w' & Hrun & Hd).
  cbv zeta in Hrun, Hd. eexists. exists w'. split; [exact Hrun|]. split.
  - unfold get_. py_unfold. rewrite Hd, dict_get_set_eq. reflexivity.
  - destruct (Dict.get a (furbies (config (self w)))) as [f|]; destruct dn, n, i, fw;
      repeat split.
Qed.

(** [add_or_update] leaves every other address as it was, keeps the position
    of an address that was cached and puts a new address last. *)
Theorem add_or_update_others (a : string) (dn n : option string) (i : option Z)
    (fw : option string) (w : World) :
  let w' := snd (add_or_update a dn n i fw w) in
  (forall a', a' <> a -> fst (get_ a' w') = fst (get_ a' w)) /\
  fst (get_addresses w') =
    Return (if Dict.mem a (furbies (config (self w)))
            then Dict.keys (furbies (config (self w)))
            else Dict.keys (furbies (config (self w))) ++ [a]).
Proof.
  cbv zeta. destruct (add_or_update_run a dn n i fw w) as (w' & Hrun & Hd).
  cbv zeta in Hrun, Hd. rewrite Hrun. cbn [snd]. split.
  - intros a' Hne. unfold get_. py_unfold. cbn [fst]. rewrite Hd.
    rewrite dict_get_set_ne by exact Hne. reflexivity.
  - unfold get_addresses. py_unfold. cbn [fst]. rewrite Hd, dict_keys_set. reflexivity.
Qed.

(** *** [remove], [clear], [update_name] *)

(** [remove] returns whether the address was cached.  Afterwards the
    address is not cached, every other address is as it was and the remaining
    addresses keep their order; removing an address that is not cached
    changes nothing at all. *)
Theorem remove_entry (a : string) (w : World) :
  Dict.wf (furbies (config (self w))) ->
  exists w',
    remove a w = (Return (Dict.mem a (furbies (config (self w)))), w') /\
    get_ a w' = (Return None, w') /\
    (forall a', a' <> a -> fst (get_ a' w') = fst (get_ a' w)) /\
    fst (get_addresses w') =
      Return (List.filter (fun a' => negb (String.eqb a a'))
                          (Dict.keys (furbies (config (self w))))) /\
    (Dict.mem a (furbies (config (self w))) = false -> w' = w).
Proof.
  intros Hwf. destruct (remove_run a w) as (w' & Hrun & Hd & Hsame).
  exists w'. split; [exact Hrun|]. split; [|split; [|split; [|exact Hsame]]].
  - unfold get_. py_unfold. rewrite Hd, dict_get_del_eq by exact Hwf. reflexivity.
  - intros a' Hne. unfold get_. py_unfold. cbn [fst]. rewrite Hd.
    rewrite dict_get_del_ne by exact Hne. reflexivity.
  - unfold get_addresses. py_unfold. cbn [fst]. rewrite Hd, dict_keys_del by exact Hwf.
    reflexivity.
Qed.

(** After [clear] the cache is empty for every reader: no entry, no address,
    no most recent entry, nothing under any address. *)
Theorem clear_empties (w : World) :
  exists w',
    clear w = (Return tt, w') /\
    get_all w' = (Return [], w') /\
    get_addresses w' = (Return [], w') /\
    get_most_recent w' = (Return None, w') /\
    (forall a, get_ a w' = (Return None, w')).
Proof.
  destruct (clear_run w) as (w' & Hrun & Hd). exists w'. split; [exact Hrun|].
  unfold get_most_recent, get_all, get_addresses, get_. py_unfold. rewrite Hd.
  repeat split.
Qed.

(** [update_name] of an address that is not cached does nothing: no entry is
    created, the clock is not read, nothing is saved.  For a cached address it
    sets [name] and [name_id], stamps [last_seen] with the clock reading and
    keeps the other fields; every other address and the order of the
    addresses stay as they were. *)
Theorem update_name_entry (a nm : string) (i : Z) (w : World) :
  match Dict.get a (furbies (config (self w))) with
  | None => update_name a nm i w = (Return tt, w)
  | Some f =>
      exists w',
        update_name a nm i w = (Return tt, w') /\
        get_ a w' =
          (Return (Some (mkKnownFurby (address f) (clock (env w) (ticks (env w))) (Some nm)
                                      (Some i) (device_name f) (firmware_revision f))), w') /\
        (forall a', a' <> a -> fst (get_ a' w') = fst (get_ a' w)) /\
        get_addresses w' = (Return (Dict.keys (furbies (config (self w)))), w')
  end.
Proof.
  destruct (Dict.get a (furbies (config (self w)))) as [f|] eqn:Hf.
  - destruct (update_name_run a nm i w f Hf) as (w' & Hrun & Hd).
    exists w'. split; [exact Hrun|]. unfold get_, get_addresses. py_unfold. rewrite Hd.
    split; [rewrite dict_get_set_eq; reflexivity|]. split.
    + intros a' Hne. cbn [fst]. rewrite dict_get_set_ne by exact Hne. reflexivity.
    + rewrite dict_keys_set_known; [reflexivity|].
      apply dict_mem_keys. unfold Dict.mem. rewrite Hf. reflexivity.
  - unfold update_name. py_unfold. rewrite Hf. reflexivity.
Qed.

(** *** Order of reading *)

Lemma sort_desc_head {A} (key : A -> Z) (l : list A) (h : A) (t : list A) :
  sort_desc key l = h :: t -> h ∈ l /\ forall x, x ∈ l -> (key x <= key h)%Z.
Proof.
  intros Hs. pose proof (sort_desc_perm key l) as Hperm.
  pose proof (sort_desc_sorted key l) as Hsorted. rewrite Hs in Hperm, Hsorted.
  split; [rewrite <- Hperm; left|].
  intros x Hx. rewrite <- Hperm in Hx.
  apply StronglySorted_inv in Hsorted as [_ Hall].
  apply elem_of_cons in Hx as [-> | Hx]; [lia|].
  rewrite Forall_forall in Hall. apply (Hall x Hx).
Qed.

(** When the clock reading of an [add_or_update] is later than the
    [last_seen] of every cached entry, the entry it returns is the one
    [get_most_recent] gives afterwards. *)
Theorem add_or_update_is_most_recent (a : string) (dn n : option string) (i : option Z)
    (fw : option string) (w : World) :
  (forall f, f ∈ Dict.values (furbies (config (self w))) ->
     (last_seen f <
      clock (env w)
            (ticks (env w) +
             match Dict.get a (furbies (config (self w))) with Some _ => 0 | None => 1 end)%nat)%Z) ->
  exists furby w',
    add_or_update a dn n i fw w = (Return furby, w') /\
    get_most_recent w' = (Return (Some furby), w').
Proof.
  intros Hnewer. destruct (add_or_update_run a dn n i fw w) as (w' & Hrun & Hd).
  cbv zeta in Hrun, Hd. eexists. exists w'. split; [exact Hrun|].
  unfold get_most_recent, get_all. py_unfold. rewrite Hd.
  match goal with |- context [Dict.set a ?f _] => set (furby := f) in * end.
  assert (Hseen : last_seen furby =
                  clock (env w)
                        (ticks (env w) +
                         match Dict.get a (furbies (config (self w))) with
                         | Some _ => 0
                         | None => 1
                         end)%nat) by reflexivity.
  destruct (sort_desc last_seen (Dict.values (Dict.set a furby (furbies (config (self w))))))
    as [|h t] eqn:Hs.
  - exfalso. apply sort_desc_nil in Hs.
    pose proof (dict_values_set_new a furby (furbies (config (self w)))) as Hin.
    rewrite Hs in Hin. inversion Hin.
  - destruct (sort_desc_head _ _ _ _ Hs) as [Hh Hmax].
    apply dict_values_set in Hh as [-> | Hold]; [reflexivity|].
    exfalso. specialize (Hnewer h Hold). rewrite <- Hseen in Hnewer.
    specialize (Hmax furby (dict_values_set_new a furby _)). lia.
Qed.

Lemma filter_insert_desc {A} (key : A -> Z) (t : Z) (x : A) (l : list A) :
  List.filter (fun y => key y =? t)%Z (insert_desc key x l) =
  List.filter (fun y => key y =? t)%Z (x :: l).
Proof.
  induction l as [|y l IH]; [reflexivity|]. cbn [insert_desc].
  destruct (key y <=? key x)%Z eqn:Hle; [reflexivity|].
  apply Z.leb_gt in Hle. cbn [List.filter] in *. rewrite IH.
  destruct (key y =? t)%Z eqn:Hy, (key x =? t)%Z eqn:Hx; try reflexivity.
  apply Z.eqb_eq in Hy, Hx. lia.
Qed.

Lemma filter_sort_desc {A} (key : A -> Z) (t : Z) (l : list A) :
  List.filter (fun y => key y =? t)%Z (sort_desc key l) = List.filter (fun y => key y =? t)%Z l.
Proof.
  induction l as [|x l IH]; [reflexivity|]. cbn [sort_desc].
  rewrite filter_insert_desc. cbn [List.filter]. rewrite IH. reflexivity.
Qed.

(** Entries with the same [last_seen] come out of [get_all] in the order in
    which their addresses were first cached: the sort is stable. *)
Theorem get_all_keeps_ties_in_order (w : World) (t : Z) :
  exists l,
    get_all w = (Return l, w) /\
    List.filter (fun f => last_seen f =? t)%Z l =
    List.filter (fun f => last_seen f =? t)%Z (Dict.values (furbies (config (self w)))).
Proof.
  eexists. split; [reflexivity|]. apply filter_sort_desc.
Qed.

(** *** Entries are filed under their own address *)

(** When every entry is stored under the address it carries, it is so after
    any mutating call; [add_or_update] is the only method that creates an
    entry, and it creates it under its address. *)
Theorem entries_stay_under_their_address (c : Call) (w : World) :
  Forall (fun kv => address (snd kv) = fst kv) (furbies (config (self w))) ->
  Forall (fun kv => address (snd kv) = fst kv) (furbies (config (self (snd (call c w))))).
Proof.
  intros Hall. destruct c as [a dn n i fw | a | | a nm i]; cbn [call].
  - destruct (add_or_update_run a dn n i fw w) as (w' & Hrun & Hd). cbv zeta in Hrun, Hd.
    unfold bind. rewrite Hrun. cbn. rewrite Hd. apply dict_Forall_set; [|exact Hall].
    cbn [fst snd].
    destruct (Dict.get a (furbies (config (self w)))) as [f|] eqn:Hf.
    + apply dict_get_elem in Hf. rewrite Forall_forall in Hall. specialize (Hall _ Hf).
      cbn in Hall. destruct dn, n, i, fw; exact Hall.
    + destruct dn, n, i, fw; reflexivity.
  - destruct (remove_run a w) as (w' & Hrun & Hd & _).
    unfold bind. rewrite Hrun. cbn. rewrite Hd. apply dict_Forall_del, Hall.
  - destruct (clear_run w) as (w' & Hrun & Hd). rewrite Hrun. cbn. rewrite Hd. constructor.
  - destruct (Dict.get a (furbies (config (self w)))) as [f|] eqn:Hf.
    + destruct (update_name_run a nm i w f Hf) as (w' & Hrun & Hd).
      rewrite Hrun. cbn. rewrite Hd. apply dict_Forall_set; [|exact Hall].
      apply dict_get_elem in Hf. rewrite Forall_forall in Hall. exact (Hall _ Hf).
    + unfold update_name. py_unfold. rewrite Hf. exact Hall.
Qed.

(** *** Concrete runs *)

Lemma remove_entry_witness :
  Dict.wf (furbies (config (self demo_one))) /\
  exists w', remove "AA:BB:CC:DD:EE:00" demo_one = (Return true, w') /\
             get_ "AA:BB:CC:DD:EE:00" w' = (Return None, w').
Proof.
  assert (Hwf : Dict.wf (furbies (config (self demo_one)))) by apply NoDup_singleton.
  split; [exact Hwf|].
  destruct (remove_entry "AA:BB:CC:DD:EE:00" demo_one Hwf) as (w' & Hrun & Hget & _).
  exists w'. split; [exact Hrun | exact Hget].
Defined.

Lemma add_or_update_is_most_recent_witness :
  exists furby w',
    add_or_update "AA:BB:CC:DD:EE:01" (Some "Furby") None None None demo_one =
      (Return furby, w') /\
    address furby = "AA:BB:CC:DD:EE:01" /\
    get_most_recent w' = (Return (Some furby), w').
Proof.
  destruct (add_or_update_is_most_recent "AA:BB:CC:DD:EE:01" (Some "Furby") None None None
              demo_one) as (furby & w' & Hrun & Hrecent).
  - intros f Hf.
    change (f ∈ [mkKnownFurby "AA:BB:CC:DD:EE:00" 1700000001 None None (Some "Furby") None])
      in Hf.
    apply list_elem_of_singleton in Hf. subst f. reflexivity.
  - exists furby, w'. split; [exact Hrun|]. split; [|exact Hrecent].
    injection Hrun as <- _. reflexivity.
Defined.

Lemma entries_stay_under_their_address_witness :
  Forall (fun kv => address (snd kv) = fst kv) (furbies (config (self demo_one))) /\
  Forall (fun kv => address (snd kv) = fst kv)
         (furbies (config (self (snd (call (demo_add "01") demo_one))))).
Proof.
  assert (H : Forall (fun kv => address (snd kv) = fst kv) (furbies (config (self demo_one))))
    by (repeat constructor).
  split; [exact H|]. exact (entries_stay_under_their_address (demo_add "01") demo_one H).
Defined.

End CacheEntries.

(** ** More on [FurbyCache]: when the file is written *)
Module CacheSaving.
Import Json Models FurbyCache CacheTheory.

Lemma cancel_unfinished_frame (t : option nat) (e : Env) :
  fs (cancel_unfinished t e) = fs e /\
  unwritable (cancel_unfinished t e) = unwritable e /\
  loop_running (cancel_unfinished t e) = loop_running e.
Proof.
  unfold cancel_unfinished. destruct t as [t|]; [|repeat split].
  destruct (task_state t e); repeat split.
Qed.

Lemma _save_fs (w : World) :
  loop_running (env w) = true \/ cache_file (self w) ∈ unwritable (env w) ->
  fs (env (snd (_save w))) = fs (env w).
Proof.
  intros Hcase. destruct (loop_running (env w)) eqn:Hl.
  - rewrite _save_running by exact Hl. unfold after_schedule. cbn.
    apply cancel_unfinished_frame.
  - destruct Hcase as [Hcase | Hcase]; [discriminate|].
    rewrite _save_not_running, _save_async_run by exact Hl.
    rewrite bool_decide_eq_true_2 by exact Hcase. reflexivity.
Qed.

Lemma call_fs (c : Call) (w : World) :
  loop_running (env w) = true \/ cache_file (self w) ∈ unwritable (env w) ->
  fs (env (snd (call c w))) = fs (env w).
Proof.
  intros Hcase. destruct (saves c w) eqn:Hc.
  - destruct (call_with_save c w Hc) as (w1 & Hframe & _ & ->).
    destruct Hframe as (Hcf & _ & _ & Hfs & Huw & Hlr & _). cbn [snd].
    rewrite _save_fs; [exact Hfs|]. rewrite Hlr, Hcf, Huw. exact Hcase.
  - rewrite call_without_save by exact Hc. reflexivity.
Qed.



(** While the event loop runs, a mutating call writes nothing: every file
    is as it was when the call returns, and a call that saves leaves the
    save-pending flag set. *)
Theorem running_loop_defers_the_write (c : Call) (w : World) :
  loop_running (env w) = true ->
  fs (env (snd (call c w))) = fs (env w) /\
  (saves c w = true -> _save_pending (self (snd (call c w))) = true).
Proof.
  intros Hl. split; [apply call_fs; left; exact Hl|].
  intros Hc. destruct (call_with_save c w Hc) as (w1 & Hframe & _ & ->).
  destruct Hframe as (_ & _ & _ & _ & _ & Hlr & _). cbn [snd].
  rewrite _save_running by (rewrite Hlr; exact Hl). reflexivity.
Qed.

Lemma resume_sleeping (t : nat) (w : World) :
  task_state t (env w) = Sleeping ->
  cache_file (self w) ∉ unwritable (env w) ->
  resume t w =
  (Return tt,
   with_env (fun e => set_tasks (<[t := Finished]> (tasks e)) e)
     (with_self (set__save_pending false) (after_write w))).
Proof.
  intros Ht Hw. destruct w as [c e]. cbn in Ht, Hw.
  unfold resume, delayed_save, done_, try_except_Cancelled. py_unfold.
  unfold with_env, with_self. cbn -[_save_async]. rewrite Ht. cbn -[_save_async].
  rewrite Ht. cbn -[_save_async].
  rewrite _save_async_run. cbn. rewrite bool_decide_eq_false_2 by exact Hw. reflexivity.
Qed.


(** The debounced write carries the latest entries: after a mutating call
    under a running loop, nothing is on disk yet, and once the loop resumes
    the task the call scheduled, the cache file holds the config as the call
    left it and the save-pending flag is cleared. *)
Theorem delayed_save_writes_latest (c : Call) (w : World) :
  loop_running (env w) = true ->
  saves c w = true ->
  cache_file (self w) ∉ unwritable (env w) ->
  let w1 := snd (call c w) in
  exists t,
    _save_task (self w1) = Some t /\
    fs (env w1) = fs (env w) /\
    let w2 := snd (resume t w1) in
    config (self w2) = config (self w1) /\
    persisted w2 /\
    _save_pending (self w2) = false /\
    task_state t (env w2) = Finished.
Proof.
  intros Hl Hc Hw. cbv zeta.
  pose proof (call_fs c w (or_introl Hl)) as Hfs.
  destruct (call_with_save c w Hc) as (w1 & Hframe & _ & Hrun).
  rewrite Hrun in *. cbn [snd] in *.
  destruct Hframe as (Hcf & _ & _ & _ & Huw & Hlr & _).
  rewrite _save_running in * by (rewrite Hlr; exact Hl). cbn [snd] in *.
  destruct (cancel_unfinished_tasks (_save_task (self w1)) (env w1)) as (Hlen & _ & _).
  destruct (cancel_unfinished_frame (_save_task (self w1)) (env w1)) as (_ & Hu & _).
  eexists. split; [reflexivity|]. split; [exact Hfs|].
  rewrite resume_sleeping.
  - cbn. split; [reflexivity|]. split; [|split; [reflexivity|]].
    + unfold persisted. cbn. apply lookup_insert_eq.
    + unfold task_state. cbn. rewrite list_lookup_insert_eq; [reflexivity|].
      rewrite length_app. simpl. lia.
  - unfold task_state, after_schedule. cbn.
    rewrite lookup_app_r by lia. rewrite Nat.sub_diag. reflexivity.
  - unfold after_schedule. cbn. rewrite Hu, Hcf, Huw. exact Hw.
Qed.

(** *** Concrete runs *)

Lemma running_loop_defers_the_write_witness :
  loop_running (env demo_one) = true /\
  fs (env (snd (call (demo_add "01") demo_one))) = fs (env demo_one) /\
  _save_pending (self (snd (call (demo_add "01") demo_one))) = true.
Proof.
  split; [reflexivity|].
  destruct (running_loop_defers_the_write (demo_add "01") demo_one eq_refl) as [Hfs Hp].
  split; [exact Hfs | exact (Hp eq_refl)].
Defined.


Lemma delayed_save_writes_latest_witness :
  loop_running (env demo_one) = true /\
  exists t, _save_task (self (snd (call (demo_add "01") demo_one))) = Some t /\
            persisted (snd (resume t (snd (call (demo_add "01") demo_one)))).
Proof.
  split; [reflexivity|].
  destruct (delayed_save_writes_latest (demo_add "01") demo_one eq_refl eq_refl
              (not_elem_of_empty (C := gset string) _))
    as (t & Ht & _ & _ & Hp & _).
  exists t. split; [exact Ht | exact Hp].
Defined.

End CacheSaving.

(** ** More on [HomeAssistantMQTT]: discovery and subscription *)
Module BridgeDiscovery.
Import Json HomeAssistant BridgeTheory Announced.

Ltac connected_world w c :=
  let h := fresh "h" in
  destruct w as [h ? ? ? ?]; destruct h; cbn [self client link_budget] in *; subst.

(** With a connected client and a link that holds, [publish_discovery]
    publishes eleven messages and changes nothing else: the light, the
    connection sensor, the five mood numbers and the four buttons, in this
    order, each on [<prefix>/<component>/<device_id>/<key>/config], each
    retained, and each carrying the device info of the call as its
    ["device"]. *)
Theorem discovery_publishes_eleven_configs (w : World) (c : Client) (mac : option string) :
  client (self w) = Some c ->
  link_budget w = None ->
  exists configs,
    publish_discovery mac w =
      (Return tt, mkWorld (self w) (outbox w ++ configs) (subscriptions w) (created_tasks w) None) /\
    map topic configs =
      map (fun component_key =>
             discovery_prefix (self w) ++ "/" ++ fst component_key ++ "/" ++
             device_id (self w) ++ "/" ++ snd component_key ++ "/config")%string
          [ ("light", "antenna"); ("binary_sensor", "connection");
            ("number", "excitedness"); ("number", "displeasedness"); ("number", "tiredness");
            ("number", "fullness"); ("number", "wellness");
            ("button", "giggle"); ("button", "puke"); ("button", "lcd_on");
            ("button", "lcd_off") ] /\
    Forall (fun m => retain m = true) configs /\
    Forall (fun m => exists v, payload m = JsonText v /\
                               json_field "device" v = Some (_get_device_info (self w) mac))
           configs.
Proof.
  intros Hc Hl. connected_world w c.
  unfold publish_discovery, _publish_light_discovery, _publish_connection_sensor_discovery,
    _publish_mood_discovery, _publish_action_buttons_discovery.
  unfold bind, get, ret, client_publish, modify. cbn -[_get_device_info String.append].
  repeat rewrite <- app_assoc. cbn [app].
  eexists. split; [reflexivity|].
  split; [reflexivity|].
  split; repeat constructor; eexists; split; reflexivity.
Qed.

Lemma discovery_publishes_eleven_configs_witness :
  client (self demo_connected) = Some (mkClient "localhost" 1883) /\
  link_budget demo_connected = None /\
  exists configs,
    outbox (snd (publish_discovery (Some "AA:BB:CC:DD:EE:FF") demo_connected)) = configs /\
    nth_error (map topic configs) 2 = Some "homeassistant/number/furby_demo/excitedness/config" /\
    length configs = 11%nat.
Proof.
  split; [reflexivity|]. split; [reflexivity|].
  destruct (discovery_publishes_eleven_configs demo_connected (mkClient "localhost" 1883)
              (Some "AA:BB:CC:DD:EE:FF") eq_refl eq_refl) as (configs & Hrun & Htopics & _).
  exists configs. rewrite Hrun. split; [reflexivity|].
  rewrite Htopics. split; [reflexivity|].
  apply (f_equal (@length string)) in Htopics. rewrite length_map in Htopics. exact Htopics.
Defined.

(** When the link drops after [k] more publishes, [k < 11],
    [publish_discovery] raises the client's error and is not undone: the
    first [k] of the eleven configs stay published, the others were never
    sent, and the object is unchanged. *)
Theorem discovery_stops_where_the_link_drops (w : World) (c : Client) (mac : option string)
    (k : nat) :
  client (self w) = Some c ->
  link_budget w = Some k ->
  (k < 11)%nat ->
  exists configs,
    outbox (snd (publish_discovery mac (with_link_budget None w))) = outbox w ++ configs /\
    publish_discovery mac w =
      (Raise MqttError,
       mkWorld (self w) (outbox w ++ take k configs) (subscriptions w) (created_tasks w)
               (Some 0%nat)).
Proof.
  intros Hc Hl Hk. connected_world w c.
  unfold with_link_budget, publish_discovery, _publish_light_discovery,
    _publish_connection_sensor_discovery, _publish_mood_discovery,
    _publish_action_buttons_discovery.
  unfold bind, get, ret, client_publish, modify, raise.
  cbn -[_get_device_info String.append take].
  repeat rewrite <- app_assoc. cbn [app].
  eexists. split; [reflexivity|].
  do 11 (destruct k as [|k];
         [ cbn -[_get_device_info String.append]; repeat rewrite <- app_assoc;
           cbn [app]; try rewrite app_nil_r; reflexivity | ]).
  lia.
Qed.

Lemma discovery_stops_where_the_link_drops_witness :
  client (self (with_link_budget (Some 3%nat) demo_connected)) = Some (mkClient "localhost" 1883) /\
  link_budget (with_link_budget (Some 3%nat) demo_connected) = Some 3%nat /\
  (3 < 11)%nat /\
  fst (publish_discovery None (with_link_budget (Some 3%nat) demo_connected)) = Raise MqttError /\
  map topic (outbox (snd (publish_discovery None (with_link_budget (Some 3%nat) demo_connected)))) =
    [ "homeassistant/light/furby_demo/antenna/config";
      "homeassistant/binary_sensor/furby_demo/connection/config";
      "homeassistant/number/furby_demo/excitedness/config" ].
Proof.
  split; [reflexivity|]. split; [reflexivity|]. split; [lia|].
  destruct (discovery_stops_where_the_link_drops (with_link_budget (Some 3%nat) demo_connected)
              (mkClient "localhost" 1883) None 3 eq_refl eq_refl ltac:(lia))
    as (configs & Hall & Hrun).
  rewrite Hrun. split; [reflexivity|].
  cbn [snd outbox]. cbn in Hall. cbn [with_link_budget demo_connected outbox self app].
  subst configs. reflexivity.
Defined.

(** Every state topic a discovery config announces is a topic the state
    publishers publish on, and the other way round: the announced state
    topics are, up to order, the topics of the demo's initial state
    publishing. *)
Theorem announced_state_topics_are_published (w : World) (c : Client) (mac : option string) :
  client (self w) = Some c ->
  link_budget w = None ->
  exists configs states,
    outbox (snd (publish_discovery mac w)) = outbox w ++ configs /\
    outbox (snd (publish_initial_states w)) = outbox w ++ states /\
    flat_map state_topics configs ≡ₚ map topic states.
Proof.
  intros Hc Hl. connected_world w c.
  unfold publish_initial_states, publish_connection_state, publish_antenna_state,
    publish_mood_state, publish_discovery, _publish_light_discovery,
    _publish_connection_sensor_discovery, _publish_mood_discovery,
    _publish_action_buttons_discovery.
  unfold bind, get, ret, client_publish, modify. cbn -[_get_device_info String.append].
  repeat rewrite <- app_assoc. cbn [app].
  eexists. eexists. split; [reflexivity|]. split; [reflexivity|].
  cbn -[String.append].
  match goal with
  | |- ?a :: ?r :: ?c :: ?rest ≡ₚ _ =>
      change ([a; r] ++ c :: rest ≡ₚ c :: [a; r] ++ rest)
  end.
  symmetry. apply Permutation_middle.
Qed.

Lemma announced_state_topics_are_published_witness :
  client (self demo_connected) = Some (mkClient "localhost" 1883) /\
  link_budget demo_connected = None /\
  exists configs states,
    outbox (snd (publish_discovery None demo_connected)) = outbox demo_connected ++ configs /\
    outbox (snd (publish_initial_states demo_connected)) = outbox demo_connected ++ states /\
    flat_map state_topics configs ≡ₚ map topic states.
Proof.
  split; [reflexivity|]. split; [reflexivity|].
  exact (announced_state_topics_are_published demo_connected (mkClient "localhost" 1883) None
           eq_refl eq_refl).
Defined.

Lemma string_append_inj (p a b : string) : (p ++ a = p ++ b)%string -> a = b.
Proof.
  induction p as [|ch p IH]; cbn; [intros H; exact H|].
  intros [= H]. apply IH, H.
Qed.

(** The eleven discovery configs carry eleven different [unique_id]s,
    whatever the device id. *)
Theorem discovery_unique_ids_are_distinct (w : World) (c : Client) (mac : option string) :
  client (self w) = Some c ->
  link_budget w = None ->
  exists configs,
    outbox (snd (publish_discovery mac w)) = outbox w ++ configs /\
    length (omap (announced "unique_id") configs) = 11%nat /\
    NoDup (omap (announced "unique_id") configs).
Proof.
  intros Hc Hl. connected_world w c.
  unfold publish_discovery, _publish_light_discovery, _publish_connection_sensor_discovery,
    _publish_mood_discovery, _publish_action_buttons_discovery.
  unfold bind, get, ret, client_publish, modify. cbn -[_get_device_info String.append].
  repeat rewrite <- app_assoc. cbn [app].
  eexists. split; [reflexivity|]. split; [reflexivity|].
  match goal with
  | |- NoDup (omap _ ?l) =>
      change (NoDup (String.append device_id0 <$>
                [ "_antenna_led"; "_connection"; "_excitedness"; "_displeasedness";
                  "_tiredness"; "_fullness"; "_wellness"; "_giggle"; "_puke"; "_lcd_on";
                  "_lcd_off" ]))
  end.
  apply NoDup_fmap_2_strong.
  - intros a b _ _ H. exact (string_append_inj _ _ _ H).
  - compute_done.
Qed.

Lemma discovery_unique_ids_are_distinct_witness :
  client (self demo_connected) = Some (mkClient "localhost" 1883) /\
  link_budget demo_connected = None /\
  exists configs,
    outbox (snd (publish_discovery None demo_connected)) = outbox demo_connected ++ configs /\
    length (omap (announced "unique_id") configs) = 11%nat /\
    NoDup (omap (announced "unique_id") configs).
Proof.
  split; [reflexivity|]. split; [reflexivity|].
  exact (discovery_unique_ids_are_distinct demo_connected (mkClient "localhost" 1883) None
           eq_refl eq_refl).
Defined.

(** *** Command topics and subscriptions *)

Lemma levels_from_append (level a b : string) :
  levels_from level (a ++ String slash b) = levels_from level a ++ levels b.
Proof.
  revert level. induction a as [|ch a IH]; intros level.
  - reflexivity.
  - change (String ch a ++ String slash b)%string with (String ch (a ++ String slash b)).
    cbn [levels_from]. destruct (Ascii.eqb ch slash); rewrite IH; reflexivity.
Qed.

Lemma levels_match_prefix (base f t : list string) :
  levels_match (base ++ f) (base ++ t) = levels_match f t.
Proof.
  induction base as [|x base IH]; [reflexivity|]. cbn [app levels_match].
  rewrite String.eqb_refl, orb_true_r. exact IH.
Qed.

Lemma topic_matches_under (base f t : string) :
  topic_matches (base ++ String slash f) (base ++ String slash t) =
  levels_match (levels f) (levels t).
Proof.
  unfold topic_matches, levels. rewrite !levels_from_append. apply levels_match_prefix.
Qed.

Ltac matches_under base :=
  etransitivity; [apply (topic_matches_under base) | reflexivity].

(** With a connected client [subscribe_to_commands] subscribes to four
    topic filters, records the callback and the one handler task it creates,
    and publishes nothing.  Every command topic the discovery configs
    announce (for the light, the five moods and the four buttons) is matched
    by one of the four filters. *)
Theorem announced_commands_are_subscribed (w : World) (c : Client) (mac : option string)
    (callback : nat) :
  client (self w) = Some c ->
  link_budget w = None ->
  exists configs filters w',
    outbox (snd (publish_discovery mac w)) = outbox w ++ configs /\
    subscribe_to_commands callback w = (Return tt, w') /\
    subscriptions w' = subscriptions w ++ filters /\
    length filters = 4%nat /\
    outbox w' = outbox w /\
    command_callback (self w') = Some callback /\
    _subscribe_task (self w') = Some (created_tasks w) /\
    created_tasks w' = S (created_tasks w) /\
    length (flat_map command_topics configs) = 11%nat /\
    Forall (fun t => Exists (fun f => topic_matches f t = true) filters)
           (flat_map command_topics configs).
Proof.
  intros Hc Hl. connected_world w c.
  unfold subscribe_to_commands, create_task, client_subscribe,
    publish_discovery, _publish_light_discovery, _publish_connection_sensor_discovery,
    _publish_mood_discovery, _publish_action_buttons_discovery.
  unfold bind, get, ret, client_publish, modify. cbn -[_get_device_info String.append].
  repeat rewrite <- app_assoc. cbn [app].
  eexists. eexists. eexists. split; [reflexivity|]. split; [reflexivity|].
  cbn -[String.append]. repeat (split; [reflexivity|]).
  repeat (apply Forall_cons_2; [|]); try apply Forall_nil_2.
  all: first
    [ apply Exists_cons_hd; matches_under base_topic0
    | apply Exists_cons_tl, Exists_cons_hd; matches_under base_topic0
    | apply Exists_cons_tl, Exists_cons_tl, Exists_cons_hd; matches_under base_topic0
    | apply Exists_cons_tl, Exists_cons_tl, Exists_cons_tl, Exists_cons_hd;
      matches_under base_topic0 ].
Qed.

Lemma announced_commands_are_subscribed_witness :
  client (self demo_connected) = Some (mkClient "localhost" 1883) /\
  link_budget demo_connected = None /\
  subscriptions (snd (subscribe_to_commands 7 demo_connected)) =
    [ "pyfluff/furby_demo/antenna/set"; "pyfluff/furby_demo/antenna/rgb/set";
      "pyfluff/furby_demo/mood/+/set"; "pyfluff/furby_demo/button/+/press" ] /\
  _subscribe_task (self (snd (subscribe_to_commands 7 demo_connected))) = Some 0%nat.
Proof.
  split; [reflexivity|]. split; [reflexivity|].
  destruct (announced_commands_are_subscribed demo_connected (mkClient "localhost" 1883) None 7
              eq_refl eq_refl)
    as (configs & filters & w' & _ & Hrun & _ & _ & _ & _ & Htask & _).
  rewrite Hrun. cbn [snd]. split; [|exact Htask].
  injection Hrun as <-. reflexivity.
Defined.

End BridgeDiscovery.

(** ** The connection of [HomeAssistantMQTT] and its message handler *)
Module LinkTheory.
Import Json HomeAssistant HomeAssistantLink.

Ltac open_net n :=
  let w := fresh "w" in
  let h := fresh "h" in
  destruct n as [w ? ? ? ? ? ?]; destruct w as [h ? ? ? ?]; destruct h;
  cbn [ha self broker_up exit_fails constructed cancelled invoked callback_raises
       client _running _subscribe_task command_callback username password broker port
       outbox subscriptions created_tasks link_budget] in *.

Ltac run_link :=
  unfold connect, disconnect, new_client, client_aenter, client_aexit, cancel_and_await,
    try_finally, try_except_Exception, on_ha, zoom, bind, get, ret, modify, raise,
    with_ha, with_self, set_client, set__running, running;
  cbn -[String.eqb String.append].

(** *** [connect] *)

(** [connect] constructs one client, always with the broker's host name and
    port; user name and password are passed only when both are given and
    neither is empty, and then both are passed. *)
Theorem connect_passes_credentials_only_together (n : Net) :
  let h := self (ha n) in
  let both := truthy (username h) && truthy (password h) in
  exists client_kwargs,
    constructed (snd (connect n)) = constructed n ++ [client_kwargs] /\
    Dict.get "hostname" client_kwargs = Some (KwStr (broker h)) /\
    Dict.get "port" client_kwargs = Some (KwInt (port h)) /\
    Dict.get "username" client_kwargs = (if both then KwStr <$> username h else None) /\
    Dict.get "password" client_kwargs = (if both then KwStr <$> password h else None) /\
    length client_kwargs = (if both then 4 else 2)%nat.
Proof.
  open_net n. run_link.
  destruct username0 as [u|], password0 as [p|]; cbn -[String.eqb];
    try destruct (String.eqb u ""); try destruct (String.eqb p "");
    destruct broker_up0; cbn; eexists; repeat split; reflexivity.
Qed.

(** When the broker answers, [connect] returns with [running] true and the
    client set; of the object only [client] and [_running] are assigned,
    and nothing is published or subscribed. *)
Theorem connect_sets_client_and_running (n : Net) :
  broker_up n = true ->
  exists n',
    connect n = (Return tt, n') /\
    running n' = true /\
    ha n' =
      with_self (fun h => set__running true
                            (set_client (Some (mkClient (broker h) (port h))) h))
                (ha n) /\
    cancelled n' = cancelled n /\ invoked n' = invoked n.
Proof.
  intros Hup. open_net n. subst. run_link.
  destruct username0 as [u|], password0 as [p|]; cbn -[String.eqb];
    try destruct (String.eqb u ""); try destruct (String.eqb p "");
    cbn; eexists; repeat split; reflexivity.
Qed.

Lemma connect_sets_client_and_running_witness :
  broker_up (demo_net (Some "furby") (Some "secret")) = true /\
  fst (connect (demo_net (Some "furby") (Some "secret"))) = Return tt /\
  running (snd (connect (demo_net (Some "furby") (Some "secret")))) = true.
Proof.
  split; [reflexivity|].
  destruct (connect_sets_client_and_running (demo_net (Some "furby") (Some "secret")) eq_refl)
    as (n' & Hrun & Hr & _).
  rewrite Hrun. split; [reflexivity | exact Hr].
Defined.

(** Past its guard a publisher raises nothing but the client's error. *)
Lemma client_publish_raises (t : string) (p : Payload) (r : bool) :
  forall w e, fst (client_publish t p r w) = Raise e -> e = MqttError.
Proof.
  intros w e. unfold client_publish, bind, get, modify, raise.
  destruct (link_budget w) as [[|k]|]; cbn; congruence.
Qed.

Lemma bind_raises {A B} (c : M World A) (k : A -> M World B) :
  (forall w e, fst (c w) = Raise e -> e = MqttError) ->
  (forall a w e, fst (k a w) = Raise e -> e = MqttError) ->
  forall w e, fst (bind c k w) = Raise e -> e = MqttError.
Proof.
  intros Hc Hk w e. unfold bind. specialize (Hc w). destruct (c w) as [[a|e'] w1]; cbn in *.
  - apply Hk.
  - intros [= <-]. apply Hc. reflexivity.
Qed.

Lemma for_each_raises {A} (xs : list A) (body : A -> M World unit) :
  (forall x w e, fst (body x w) = Raise e -> e = MqttError) ->
  forall w e, fst (for_each xs body w) = Raise e -> e = MqttError.
Proof.
  intros Hb. induction xs as [|x xs IH]; cbn [for_each].
  - intros w e. cbn. discriminate.
  - apply bind_raises; [apply Hb | intros _; exact IH].
Qed.

Lemma guarded_publisher_raises (body : World -> M World unit) :
  (forall w0 w e, fst (body w0 w) = Raise e -> e = MqttError) ->
  forall w e,
    fst ((w0 <- get ;; match client (self w0) with
                       | None => ret tt
                       | Some _ => body w0
                       end) w) = Raise e ->
    e = MqttError.
Proof.
  intros Hb w e. unfold bind at 1. cbn [get].
  destruct (client (self w)); [apply Hb | cbn; discriminate].
Qed.

Lemma publish_discovery_guard_passed (mac : option string) (w : World) (c : Client) :
  client (self w) = Some c ->
  fst (publish_discovery mac w) <> Raise (RuntimeError "Not connected to MQTT broker").
Proof.
  intros Hc H.
  assert (He : RuntimeError "Not connected to MQTT broker" = MqttError); [|discriminate He].
  revert H. generalize (RuntimeError "Not connected to MQTT broker").
  unfold publish_discovery. unfold bind at 1. cbn [get]. rewrite Hc.
  generalize (_get_device_info (self w) mac). intros device_info. clear Hc. revert w.
  repeat (apply bind_raises; [|intros _]).
  - apply (guarded_publisher_raises (fun w0 => client_publish _ _ _)).
    intros ?. apply client_publish_raises.
  - apply (guarded_publisher_raises (fun w0 => client_publish _ _ _)).
    intros ?. apply client_publish_raises.
  - apply (guarded_publisher_raises (fun w0 => for_each _ _)).
    intros ?. apply for_each_raises. intros [[? ?] ?]. apply client_publish_raises.
  - apply (guarded_publisher_raises (fun w0 => for_each _ _)).
    intros ?. apply for_each_raises. intros [[? ?] ?]. apply client_publish_raises.
Qed.

Lemma on_ha_fst {A} (c : M World A) (n : Net) : fst (on_ha c n) = fst (c (ha n)).
Proof. unfold on_ha, zoom. destruct (c (ha n)). reflexivity. Qed.

Lemma on_ha_run {A} (c : M World A) (n : Net) (r : result A) :
  c (ha n) = (r, ha n) -> on_ha c n = (r, n).
Proof.
  intros H. unfold on_ha, zoom. rewrite H. destruct n as [w ? ? ? ? ? ?]. reflexivity.
Qed.

Lemma failed_connect_run (n : Net) :
  broker_up n = false ->
  fst (connect n) = Raise MqttError /\
  running (snd (connect n)) = running n /\
  ha (snd (connect n)) =
    with_self (fun h => set_client (Some (mkClient (broker h) (port h))) h) (ha n).
Proof.
  intros Hup. open_net n. subst. run_link.
  destruct username0 as [u|], password0 as [p|]; cbn -[String.eqb];
    try destruct (String.eqb u ""); try destruct (String.eqb p "");
    cbn; repeat split; reflexivity.
Qed.

(** When the broker does not answer, [connect] re-raises the client's error
    and [running] keeps its value, but [client] was assigned before the
    failure and stays: the object no longer reports "Not connected", and
    [publish_discovery] goes on to the client instead of raising that
    [RuntimeError]. *)
Theorem failed_connect_leaves_the_client_set (n : Net) (mac : option string) :
  broker_up n = false ->
  exists n',
    connect n = (Raise MqttError, n') /\
    running n' = running n /\
    ha n' = with_self (fun h => set_client (Some (mkClient (broker h) (port h))) h) (ha n) /\
    fst (on_ha (publish_discovery mac) n') <>
      Raise (RuntimeError "Not connected to MQTT broker").
Proof.
  intros Hup. destruct (failed_connect_run n Hup) as (Hfst & Hrunning & Hha).
  exists (snd (connect n)). split; [|split; [exact Hrunning | split; [exact Hha|]]].
  - rewrite <- Hfst. apply surjective_pairing.
  - rewrite on_ha_fst, Hha.
    apply (publish_discovery_guard_passed mac _
             (mkClient (broker (self (ha n))) (port (self (ha n))))).
    reflexivity.
Qed.

Lemma failed_connect_leaves_the_client_set_witness :
  let n := mkNet (ha (demo_net None None)) false false [] [] [] (fun _ _ _ => None) in
  broker_up n = false /\
  fst (connect n) = Raise MqttError /\
  running (snd (connect n)) = false /\
  client (self (ha (snd (connect n)))) = Some (mkClient "localhost" 1883).
Proof.
  cbv zeta. split; [reflexivity|].
  destruct (failed_connect_leaves_the_client_set
              (mkNet (ha (demo_net None None)) false false [] [] [] (fun _ _ _ => None))
              None eq_refl) as (n' & Hrun & Hr & Hha & _).
  rewrite Hrun. cbn [fst snd]. split; [reflexivity|]. split; [exact Hr|].
  rewrite Hha. reflexivity.
Defined.

(** *** [disconnect] *)

Lemma disconnect_run (n : Net) :
  disconnect n =
  (Return tt,
   mkNet (with_self (fun h => set_client None (set__running false h)) (ha n))
         (broker_up n) (exit_fails n) (constructed n)
         (cancelled n ++ option_list (_subscribe_task (self (ha n))))
         (invoked n) (callback_raises n)).
Proof.
  open_net n. run_link.
  destruct _subscribe_task0 as [t|], client0 as [c|], exit_fails0; cbn;
    rewrite ?app_nil_r; reflexivity.
Qed.

Lemma on_ha_eq {A} (c : M World A) (n : Net) :
  on_ha c n = (fst (c (ha n)), with_ha (fun _ => snd (c (ha n))) n).
Proof. unfold on_ha, zoom. destruct (c (ha n)). reflexivity. Qed.

Lemma subscribe_to_commands_run (w : World) (c : Client) (callback : nat) :
  client (self w) = Some c ->
  subscribe_to_commands callback w =
  (Return tt,
   mkWorld (set__subscribe_task (Some (created_tasks w))
              (set_command_callback (Some callback) (self w)))
           (outbox w)
           (subscriptions w ++
              [ base_topic (self w) ++ "/antenna/set";
                base_topic (self w) ++ "/antenna/rgb/set";
                base_topic (self w) ++ "/mood/+/set";
                base_topic (self w) ++ "/button/+/press" ]%string)
           (S (created_tasks w)) (link_budget w)).
Proof.
  intros Hc. destruct w as [h out subs tasks budget]. destruct h. cbn [self client] in Hc.
  subst. unfold subscribe_to_commands, create_task, client_subscribe, bind, get, ret, modify.
  cbn -[String.append]. repeat rewrite <- app_assoc. reflexivity.
Qed.

(** [disconnect] never raises, also when the client's [__aexit__] fails.
    It leaves [running] false and [client] at [None], calls [cancel()] on
    the handler task when there is one, and assigns nothing else: the task
    stays in [_subscribe_task] and the callback stays installed.  Nothing
    is published or subscribed. *)
Theorem disconnect_never_raises (n : Net) :
  exists n',
    disconnect n = (Return tt, n') /\
    running n' = false /\
    ha n' = with_self (fun h => set_client None (set__running false h)) (ha n) /\
    cancelled n' = cancelled n ++ option_list (_subscribe_task (self (ha n))) /\
    constructed n' = constructed n /\
    invoked n' = invoked n.
Proof.
  eexists. split; [apply disconnect_run|]. repeat split.
Qed.

(** After [disconnect], whatever the state before, the object behaves as
    one that never connected: [publish_discovery] and
    [subscribe_to_commands] raise [RuntimeError], the three state publishers
    return without publishing. *)
Theorem disconnected_bridge_is_silent (n : Net) (mac : option string) (callback : nat)
    (red green blue : Z) (on connected : bool) (mood_type : string) (value : Z) :
  let n' := snd (disconnect n) in
  on_ha (publish_discovery mac) n' =
    (Raise (RuntimeError "Not connected to MQTT broker"), n') /\
  on_ha (subscribe_to_commands callback) n' =
    (Raise (RuntimeError "Not connected to MQTT broker"), n') /\
  on_ha (publish_antenna_state red green blue on) n' = (Return tt, n') /\
  on_ha (publish_connection_state connected) n' = (Return tt, n') /\
  on_ha (publish_mood_state mood_type value) n' = (Return tt, n').
Proof.
  cbv zeta.
  assert (Hc : client (self (ha (snd (disconnect n)))) = None).
  { rewrite disconnect_run. reflexivity. }
  repeat split; apply on_ha_run;
    unfold publish_discovery, subscribe_to_commands, publish_antenna_state,
      publish_connection_state, publish_mood_state, bind, get;
    rewrite Hc; reflexivity.
Qed.

(** A second [subscribe_to_commands] replaces the handler task without
    cancelling the first one: after two subscriptions and a [disconnect],
    [cancel()] was called on the second task only, two tasks were created,
    the four filters were subscribed twice, and the second callback is the
    installed one. *)
Theorem resubscribing_orphans_the_first_task (n : Net) (c : Client) (cb1 cb2 : nat) :
  client (self (ha n)) = Some c ->
  exists n',
    (on_ha (subscribe_to_commands cb1) ;; on_ha (subscribe_to_commands cb2) ;; disconnect) n =
      (Return tt, n') /\
    cancelled n' = cancelled n ++ [S (created_tasks (ha n))] /\
    created_tasks (ha n') = S (S (created_tasks (ha n))) /\
    command_callback (self (ha n')) = Some cb2 /\
    exists filters,
      length filters = 4%nat /\
      subscriptions (ha n') = subscriptions (ha n) ++ filters ++ filters.
Proof.
  intros Hc. unfold bind.
  rewrite on_ha_eq, (subscribe_to_commands_run _ c) by exact Hc. cbn [fst snd].
  rewrite on_ha_eq, (subscribe_to_commands_run _ c)
    by (destruct n as [w ? ? ? ? ? ?]; cbn in *; exact Hc).
  cbn [fst snd]. rewrite disconnect_run.
  eexists. split; [reflexivity|].
  destruct n as [w ? ? ? ? ? ?]. destruct w as [h ? ? ? ?]. destruct h.
  cbn -[String.append]. repeat (split; [reflexivity|]).
  eexists. split; [|rewrite <- app_assoc; reflexivity]. reflexivity.
Qed.

Lemma resubscribing_orphans_the_first_task_witness :
  client (self (ha demo_listening)) = Some (mkClient "localhost" 1883) /\
  exists n', cancelled n' = [1%nat] /\ created_tasks (ha n') = 2%nat.
Proof.
  split; [reflexivity|].
  destruct (resubscribing_orphans_the_first_task demo_listening (mkClient "localhost" 1883)
              1 2 eq_refl) as (n' & _ & Hcancel & Htasks & _).
  exists n'. split; [exact Hcancel | exact Htasks].
Defined.

(** *** [_handle_messages] *)

Lemma with_calls_nil (n : Net) : with_calls [] n = n.
Proof. destruct n. unfold with_calls. cbn. rewrite app_nil_r. reflexivity. Qed.

Lemma with_calls_app (cs1 cs2 : list (nat * string * string)) (n : Net) :
  with_calls cs2 (with_calls cs1 n) = with_calls (cs1 ++ cs2) n.
Proof. unfold with_calls. cbn. rewrite app_assoc. reflexivity. Qed.

Lemma only_invoked_with_calls (cs : list (nat * string * string)) (n : Net) :
  only_invoked n (with_calls cs n).
Proof. repeat split. exists cs. reflexivity. Qed.

(** One turn of the loop on a payload that decodes. *)
Lemma message_loop_cons_text (m : Incoming) (rest : list Incoming) (n : Net) (text : string) :
  payload_text (in_payload m) = Some text ->
  message_loop (m :: rest) n =
  match command_callback (self (ha n)) with
  | Some cb =>
      match callback_raises n cb (in_topic m) text with
      | Some e =>
          if is_Exception e then message_loop rest (with_calls [(cb, in_topic m, text)] n)
          else (Raise e, with_calls [(cb, in_topic m, text)] n)
      | None => message_loop rest (with_calls [(cb, in_topic m, text)] n)
      end
  | None => message_loop rest n
  end.
Proof.
  intros Ht. cbn [message_loop]. unfold bind at 1.
  assert (Hd : decode_payload (in_payload m) n = (Return text, n)).
  { destruct (in_payload m); cbn in Ht; try discriminate Ht; injection Ht as <-; reflexivity. }
  rewrite Hd. unfold bind at 1. cbn [get].
  destruct (command_callback (self (ha n))) as [cb|]; [|reflexivity].
  unfold bind at 1, try_except_Exception, call_callback, bind, get, modify, raise, ret.
  destruct (callback_raises n cb (in_topic m) text) as [e|]; [|reflexivity].
  destruct (is_Exception e); reflexivity.
Qed.

(** One turn of the loop on a payload that does not decode. *)
Lemma message_loop_cons_bad (m : Incoming) (rest : list Incoming) (n : Net) (e : exn) :
  in_payload m = Undecodable e ->
  message_loop (m :: rest) n = (Raise e, n).
Proof. intros Hp. cbn [message_loop]. unfold bind at 1. rewrite Hp. reflexivity. Qed.

Lemma message_loop_shape (messages : list Incoming) (n : Net) :
  exists r cs, message_loop messages n = (r, with_calls cs n).
Proof.
  revert n. induction messages as [|m rest IH]; intros n.
  - exists (Return tt), []. rewrite with_calls_nil. reflexivity.
  - destruct (payload_text (in_payload m)) as [text|] eqn:Ht.
    + rewrite (message_loop_cons_text m rest n text Ht).
      destruct (command_callback (self (ha n))) as [cb|]; [|apply IH].
      assert (Hnext : exists r cs, message_loop rest (with_calls [(cb, in_topic m, text)] n) =
                                   (r, with_calls cs n)).
      { destruct (IH (with_calls [(cb, in_topic m, text)] n)) as (r & cs & H).
        exists r, ([(cb, in_topic m, text)] ++ cs). rewrite H, with_calls_app. reflexivity. }
      destruct (callback_raises n cb (in_topic m) text) as [e|]; [|exact Hnext].
      destruct (is_Exception e); [exact Hnext|]. eexists. eexists. reflexivity.
    + destruct (in_payload m) as [|text|e] eqn:Hp; try discriminate Ht.
      rewrite (message_loop_cons_bad m rest n e Hp).
      exists (Raise e), []. rewrite with_calls_nil. reflexivity.
Qed.

Lemma message_loop_app (before after : list Incoming) (n : Net) :
  message_loop (before ++ after) n = (message_loop before ;; message_loop after) n.
Proof.
  revert n. induction before as [|m before IH]; intros n; [reflexivity|].
  change ((m :: before) ++ after) with (m :: (before ++ after)).
  destruct (payload_text (in_payload m)) as [text|] eqn:Ht.
  - unfold bind. rewrite !(message_loop_cons_text m _ n text Ht).
    unfold bind in IH.
    destruct (command_callback (self (ha n))) as [cb|]; [|apply IH].
    destruct (callback_raises n cb (in_topic m) text) as [e|]; [|apply IH].
    destruct (is_Exception e); [apply IH | reflexivity].
  - destruct (in_payload m) as [|text|e] eqn:Hp; try discriminate Ht.
    unfold bind. rewrite !(message_loop_cons_bad m _ n e Hp). reflexivity.
Qed.

Lemma calls_cons (cb : nat) (m : Incoming) (rest : list Incoming) (text : string) :
  payload_text (in_payload m) = Some text ->
  calls cb (m :: rest) = (cb, in_topic m, text) :: calls cb rest.
Proof. intros Ht. unfold calls. simpl. rewrite Ht. reflexivity. Qed.

Lemma message_loop_delivers (messages : list Incoming) (n : Net) (cb : nat) :
  command_callback (self (ha n)) = Some cb ->
  Forall (fun m => is_Some (payload_text (in_payload m))) messages ->
  (forall topic text e, callback_raises n cb topic text = Some e -> is_Exception e = true) ->
  message_loop messages n = (Return tt, with_calls (calls cb messages) n).
Proof.
  intros Hcb Hok Hexn. revert n Hcb Hexn.
  induction Hok as [|m rest [text Ht] Hrest IH]; intros n Hcb Hexn.
  - cbn. rewrite with_calls_nil. reflexivity.
  - rewrite (message_loop_cons_text m rest n text Ht), Hcb.
    assert (Hnext : message_loop rest (with_calls [(cb, in_topic m, text)] n) =
                    (Return tt, with_calls (calls cb (m :: rest)) n)).
    { rewrite IH by (try exact Hcb; exact Hexn).
      rewrite with_calls_app, (calls_cons cb m rest text Ht). reflexivity. }
    destruct (callback_raises n cb (in_topic m) text) as [e|] eqn:He; [|exact Hnext].
    rewrite (Hexn _ _ _ He). exact Hnext.
Qed.

Lemma _handle_messages_run (messages : list Incoming) (n : Net) :
  _handle_messages messages n =
  match client (self (ha n)) with
  | None => (Return tt, n)
  | Some _ =>
      try_except_Exception (try_except_Cancelled (message_loop messages)) (fun e => ret tt) n
  end.
Proof. unfold _handle_messages, bind, get. destruct (client (self (ha n))); reflexivity. Qed.

(** [_handle_messages] never raises, whatever arrives and whichever
    [Exception] or [CancelledError] the callback raises: a payload that does
    not decode, an exception of the callback and a cancellation all end in
    a normal return.  It assigns no attribute of the object, publishes and
    subscribes nothing: it only calls the callback. *)
Theorem handle_messages_never_raises (messages : list Incoming) (n : Net) :
  fst (_handle_messages messages n) = Return tt /\
  only_invoked n (snd (_handle_messages messages n)).
Proof.
  unfold _handle_messages, bind, get.
  destruct (client (self (ha n))) as [c|].
  - destruct (message_loop_shape messages n) as (r & cs & H).
    unfold try_except_Exception, try_except_Cancelled. rewrite H.
    destruct r as [[]|e]; [|destruct e]; cbn; (split; [reflexivity|]);
      apply only_invoked_with_calls.
  - cbn. split; [reflexivity|]. rewrite <- (with_calls_nil n) at 2.
    apply only_invoked_with_calls.
Qed.

(** With a client and a callback installed, when every payload decodes and
    the callback raises nothing but [Exception]s, every message reaches the
    callback, once and in the order of arrival, with its topic and its
    decoded payload (the empty string for no payload): an exception of the
    callback for one message does not keep the later ones from it. *)
Theorem commands_reach_the_callback_in_order (messages : list Incoming) (n : Net)
    (c : Client) (cb : nat) :
  client (self (ha n)) = Some c ->
  command_callback (self (ha n)) = Some cb ->
  Forall (fun m => is_Some (payload_text (in_payload m))) messages ->
  (forall topic text e, callback_raises n cb topic text = Some e -> is_Exception e = true) ->
  _handle_messages messages n = (Return tt, with_calls (calls cb messages) n) /\
  map (fun call => snd (fst call)) (calls cb messages) = map in_topic messages.
Proof.
  intros Hc Hcb Hok Hexn. split.
  - unfold _handle_messages, bind, get. rewrite Hc.
    unfold try_except_Exception, try_except_Cancelled.
    rewrite (message_loop_delivers messages n cb Hcb Hok Hexn). reflexivity.
  - clear -Hok. induction Hok as [|m rest [text Ht] Hrest IH]; [reflexivity|].
    rewrite (calls_cons cb m rest text Ht). cbn [map fst snd]. f_equal. exact IH.
Qed.

Lemma commands_reach_the_callback_in_order_witness :
  client (self (ha demo_listening)) = Some (mkClient "localhost" 1883) /\
  command_callback (self (ha demo_listening)) = Some 7%nat /\
  callback_raises demo_listening 7 "pyfluff/furby_demo/button/puke/press" "PRESS" =
    Some (RuntimeError "Furby not connected") /\
  invoked (snd (_handle_messages demo_commands demo_listening)) =
    [ (7%nat, "pyfluff/furby_demo/antenna/rgb/set", "255,0,0");
      (7%nat, "pyfluff/furby_demo/button/puke/press", "PRESS");
      (7%nat, "pyfluff/furby_demo/mood/fullness/set", "") ].
Proof.
  split; [reflexivity|]. split; [reflexivity|]. split; [reflexivity|].
  assert (Hok : Forall (fun m => is_Some (payload_text (in_payload m))) demo_commands).
  { repeat constructor; eexists; reflexivity. }
  assert (Hexn : forall topic text e,
             callback_raises demo_listening 7 topic text = Some e -> is_Exception e = true).
  { intros topic text e. cbn.
    destruct (String.eqb topic "pyfluff/furby_demo/button/puke/press"); intros [= <-].
    reflexivity. }
  destruct (commands_reach_the_callback_in_order demo_commands demo_listening
              (mkClient "localhost" 1883) 7 eq_refl eq_refl Hok Hexn) as [Hrun _].
  rewrite Hrun. reflexivity.
Defined.

(** A payload on which [decode()] raises ends the handler: it returns
    normally, exactly as if the messages had stopped before that one, and
    no later message reaches the callback. *)
Theorem undecodable_payload_ends_the_handler (before after : list Incoming) (topic : string)
    (e : exn) (n : Net) :
  _handle_messages (before ++ mkIncoming topic (Undecodable e) :: after) n =
  _handle_messages before n.
Proof.
  rewrite !_handle_messages_run.
  destruct (client (self (ha n))) as [c|]; [|reflexivity].
  unfold try_except_Exception, try_except_Cancelled.
  rewrite message_loop_app. unfold bind.
  destruct (message_loop before n) as [[[]|e'] n1]; [|reflexivity].
  rewrite (message_loop_cons_bad (mkIncoming topic (Undecodable e)) after n1 e eq_refl).
  destruct e; reflexivity.
Qed.

End LinkTheory.
